(** * Face-centred image processor: a shallow embedding of [face_processor.py]

    The development follows the source file function by function:
    - the Python builtins the code relies on ([sorted], [max], list
      indexing, array slicing) are given their Python semantics;
    - [calculate_crop_region] is pure integer geometry over [Z];
    - [process_image] and [process_folder] run in a small monad that threads
      the trace of file-system calls and carries Python exceptions, so that
      the [try]/[except] of [process_image] is modelled as written.

    OpenCV itself (decoding, cascades, resampling kernels, encoding) is an
    external collaborator: it is an interface, [Environment], whose answers are
    arbitrary.

    Coordinates are integers of [Z]: the boxes of a detector lie inside the
    image, so the 32-bit values numpy carries stay far from wrapping. The
    unused local [shift] is left out. Python's [//] on integers is [Z.div],
    both round towards minus infinity.

    The four [print] calls of [process_image] show a file name that comes
    from the file system and that the standard output may be unable to
    encode: they are calls to the outside world that can raise, one of them
    inside the [except] block. The other [print] calls, of fixed text, of
    counts and of the folder names typed at the prompt, are left out: they
    fail only when the standard output itself is unusable. *)

From Stdlib Require Import String ZArith List Bool Lia Permutation Sorted.
Import ListNotations.
Open Scope Z_scope.

(* ================================================================== *)
(** ** Python values: exceptions and results *)

(** Exceptions deriving from Python's [Exception]: the ones the builtins used
    here raise, OpenCV's [cv2.error], and any other. *)
Inductive Exception : Type :=
| IndexError
| ValueError
| cv2_error (msg : string)
| OtherException (msg : string).

(** A computation either returns a value or raises. *)
Inductive res (A : Type) : Type :=
| Ok (a : A)
| Raise (e : Exception).
Arguments Ok {A} a.
Arguments Raise {A} e.

Definition res_bind {A B : Type} (r : res A) (k : A -> res B) : res B :=
  match r with
  | Ok a => k a
  | Raise e => Raise e
  end.

Notation "'let?' x := r 'in' k" := (res_bind r (fun x => k))
  (at level 10, x pattern, r at level 100, k at level 200).

(* ================================================================== *)
(** ** Python builtins on lists *)

(** [len(l)]. *)
Definition len {A : Type} (l : list A) : Z := Z.of_nat (List.length l).

(** [l[i]]: a negative index counts from the end, an index out of range raises
    [IndexError]. *)
Definition py_getitem {A : Type} (l : list A) (i : Z) : res A :=
  let j := if i <? 0 then i + len l else i in
  if (j <? 0) || (len l <=? j) then Raise IndexError
  else match nth_error l (Z.to_nat j) with
       | Some a => Ok a
       | None => Raise IndexError
       end.

(** [sorted(l, key=key)] is a stable sort. It is embedded as the insertion sort
    that puts a new element in front of the elements with an equal key: the
    elements are inserted from the last to the first, so equal keys keep the
    order of [l]. *)
Fixpoint insert_by {A : Type} (key : A -> Z) (e : A) (l : list A) : list A :=
  match l with
  | [] => [e]
  | y :: l' => if key e <=? key y then e :: l else y :: insert_by key e l'
  end.

Definition py_sorted {A : Type} (key : A -> Z) (l : list A) : list A :=
  fold_right (insert_by key) [] l.

(** [max(l, key=key)]: the first element whose key is maximal; [ValueError] on
    an empty sequence. *)
Fixpoint max_from {A : Type} (key : A -> Z) (best : A) (l : list A) : A :=
  match l with
  | [] => best
  | f :: l' => max_from key (if key best <? key f then f else best) l'
  end.

Definition py_max {A : Type} (key : A -> Z) (l : list A) : res A :=
  match l with
  | [] => Raise ValueError
  | f :: l' => Ok (max_from key f l')
  end.

(* ================================================================== *)
(** ** Images as arrays *)

(** A pixel is its list of channel values. *)
Definition pixel : Type := list Z.

(** A numpy image: [shape[:2]] is [(shape0, shape1)] = (height, width), and
    [data r c] is the pixel at row [r], column [c]. *)
Record ndarray : Type := mk_ndarray {
  shape0 : Z;
  shape1 : Z;
  data : Z -> Z -> pixel
}.

(** The bound [i] of a slice over an axis of length [n]: a negative bound counts
    from the end, and every bound is clipped to [0..n]. *)
Definition slice_bound (i n : Z) : Z :=
  if i <? 0 then Z.max (i + n) 0 else Z.min i n.

(** [a[r0:r1, c0:c1]]. *)
Definition slice2 (a : ndarray) (r0 r1 c0 c1 : Z) : ndarray :=
  let r0' := slice_bound r0 (shape0 a) in
  let r1' := slice_bound r1 (shape0 a) in
  let c0' := slice_bound c0 (shape1 a) in
  let c1' := slice_bound c1 (shape1 a) in
  {| shape0 := Z.max 0 (r1' - r0');
     shape1 := Z.max 0 (c1' - c0');
     data := fun r c => data a (r0' + r) (c0' + c) |}.

(** An array with no pixel. *)
Definition is_empty (a : ndarray) : bool :=
  (shape0 a <=? 0) || (shape1 a <=? 0).

(* ================================================================== *)
(** ** Bounding boxes *)

(** A detection [(x, y, w, h)]; the code reads it by index, [e[0]] .. [e[3]]. *)
Record box : Type := Box {
  box_x : Z;
  box_y : Z;
  box_w : Z;
  box_h : Z
}.

(* ================================================================== *)
(** ** [calculate_crop_region] *)

(** Lines 62-75: the face position, from the eyes when two or more were found,
    from the face box otherwise. *)
Definition face_position (face : box) (eyes : list box) : res (Z * Z) :=
  let fx := box_x face in
  let fy := box_y face in
  let fw := box_w face in
  let fh := box_h face in
  if len eyes >=? 2 then
    let eyes_sorted := py_sorted box_x eyes in
    let? left_eye := py_getitem eyes_sorted 0 in
    let? right_eye := py_getitem eyes_sorted (-1) in
    let face_x :=
      (box_x left_eye + box_w left_eye / 2 + box_x right_eye + box_w right_eye / 2) / 2 in
    let face_y :=
      (box_y left_eye + box_h left_eye / 2 + box_y right_eye + box_h right_eye / 2) / 2 in
    Ok (face_x, face_y)
  else
    let face_x := fx + fw / 2 in
    let face_y := fy + fh / 2 in
    Ok (face_x, face_y).

(** Lines 77-118: the crop rectangle for an image of width [w] and height [h]
    and a face at [(face_x, face_y)]. *)
Definition crop_window (w h face_x face_y : Z) : Z * Z * Z * Z :=
  let target_x := 256 in
  let target_y := 170 in
  let crop_left := face_x - target_x in
  let crop_top := face_y - target_y in
  let crop_right := crop_left + 512 in
  let crop_bottom := crop_top + 512 in
  let '(crop_left, crop_right) :=
    if crop_left <? 0 then (0, 512)
    else if crop_right >? w then (w - 512, w)
    else (crop_left, crop_right) in
  let '(crop_top, crop_bottom) :=
    if crop_top <? 0 then (0, 512)
    else if crop_bottom >? h then (h - 512, h)
    else (crop_top, crop_bottom) in
  let crop_left := Z.max 0 crop_left in
  let crop_top := Z.max 0 crop_top in
  let crop_right := Z.min w (crop_left + 512) in
  let crop_bottom := Z.min h (crop_top + 512) in
  (crop_left, crop_top, crop_right, crop_bottom).

(** The whole function: [(left, top, right, bottom)]. *)
Definition calculate_crop_region (image : ndarray) (face : box) (eyes : list box)
  : res (Z * Z * Z * Z) :=
  let h := shape0 image in
  let w := shape1 image in
  let? (face_x, face_y) := face_position face eyes in
  Ok (crop_window w h face_x face_y).

(* ================================================================== *)
(** ** The outside world: file system and OpenCV *)

(** A [pathlib.Path], kept as its directory and its final component [name]. *)
Record Path : Type := mk_Path {
  parent : string;
  name : string
}.

(** [str(path)]. *)
Definition str (p : Path) : string := (parent p ++ "/" ++ name p)%string.

(** What [folder.iterdir()] yields, with the two facts the code asks of each
    entry: [is_file()] and [suffix.lower()]. *)
Record DirEntry : Type := mk_DirEntry {
  entry_path : Path;
  entry_is_file : bool;
  entry_suffix_lower : string
}.

(** The calls that reach the file system, in the order they are made. *)
Inductive event : Type :=
| Iterdir (folder : string)
| Mkdir (folder : string)
| Imread (filename : string)
| Imwrite (filename : string) (img : ndarray).

Definition trace : Type := list event.

Inductive interpolation : Type :=
| INTER_NEAREST
| INTER_LINEAR
| INTER_CUBIC
| INTER_AREA
| INTER_LANCZOS4.

(** What [process_image] prints: lines 126, 133, 152 and 156. *)
Inductive message : Type :=
| Could_not_read (image_path : Path)
| No_face_detected (image_path : Path)
| Processed (file_name : string)
| Error_processing (image_path : Path) (e : Exception).

(** The collaborators of the program. A file-system call answers according to
    everything that happened before it; an OpenCV computation is a function of
    its arguments; each of them may raise. [imread] answers [None] for a file
    it cannot decode, [imwrite] answers whether the file was written, [print]
    raises when the standard output cannot take the message. *)
Class Environment : Type := {
  print : trace -> message -> res unit;
  iterdir : trace -> string -> res (list DirEntry);
  mkdir : trace -> string -> res unit;
  imread : trace -> string -> res (option ndarray);
  imwrite : trace -> string -> ndarray -> res bool;
  cvtColor_BGR2GRAY : ndarray -> res ndarray;
  face_cascade_detectMultiScale : ndarray -> res (list box);
  eye_cascade_detectMultiScale : ndarray -> res (list box);
  resample : interpolation -> ndarray -> Z -> Z -> Z -> Z -> pixel
}.

(** A computation that calls the file system: it extends the trace, also when
    it ends by raising. *)
Definition M (A : Type) : Type := trace -> trace * res A.

Definition ret {A : Type} (a : A) : M A := fun t => (t, Ok a).

Definition bind {A B : Type} (m : M A) (k : A -> M B) : M B :=
  fun t =>
    match m t with
    | (t', Ok a) => k a t'
    | (t', Raise e) => (t', Raise e)
    end.

Definition lift {A : Type} (r : res A) : M A := fun t => (t, r).

(** [try: m except Exception as e: h e]. *)
Definition try_except {A : Type} (m : M A) (h : Exception -> M A) : M A :=
  fun t =>
    match m t with
    | (t', Ok a) => (t', Ok a)
    | (t', Raise e) => h e t'
    end.

Notation "x <- m ;; k" := (bind m (fun x => k))
  (at level 61, m at next level, right associativity).
Notation "' pat <- m ;; k" := (bind m (fun x => match x with pat => k end))
  (at level 61, pat pattern, m at next level, right associativity).

Section Processor.
Context {env : Environment}.

Definition call_iterdir (folder : string) : M (list DirEntry) :=
  fun t => (t ++ [Iterdir folder], iterdir t folder).

Definition call_mkdir (folder : string) : M unit :=
  fun t => (t ++ [Mkdir folder], mkdir t folder).

Definition cv2_imread (filename : string) : M (option ndarray) :=
  fun t => (t ++ [Imread filename], imread t filename).

Definition cv2_imwrite (filename : string) (img : ndarray) : M bool :=
  fun t => (t ++ [Imwrite filename img], imwrite t filename img).

(** [print(msg)]: the trace keeps the calls to the file system only. *)
Definition py_print (msg : message) : M unit :=
  fun t => (t, print t msg).

(** [cv2.resize(src, dsize, interpolation=...)] with [dsize = (width, height)]:
    OpenCV refuses an empty source, and otherwise returns an image of exactly
    [height] rows and [width] columns. *)
Definition cv2_resize (src : ndarray) (dsize : Z * Z) (interp : interpolation)
  : res ndarray :=
  if is_empty src then Raise (cv2_error "!ssize.empty() in function 'resize'")
  else
    let '(dw, dh) := dsize in
    Ok {| shape0 := dh; shape1 := dw; data := resample interp src dw dh |}.

Definition supported_formats : list string :=
  [".jpg"; ".jpeg"; ".png"; ".bmp"; ".tiff"; ".tif"; ".webp"]%string.

(** [get_image_files]. *)
Definition get_image_files (folder_path : string) : M (list Path) :=
  entries <- call_iterdir folder_path ;;
  ret (map entry_path
         (filter (fun file_path =>
                    entry_is_file file_path &&
                    existsb (String.eqb (entry_suffix_lower file_path)) supported_formats)
                 entries)).

(** [detect_face_and_eyes]: [None] stands for the pair [(None, None)]. The
    scale factor and the neighbour count given to the face cascade are part
    of the cascade's answer. *)
Definition detect_face_and_eyes (image : ndarray) : res (option (box * list box)) :=
  let? gray := cvtColor_BGR2GRAY image in
  let? faces := face_cascade_detectMultiScale gray in
  if len faces =? 0 then Ok None
  else
    let? face := py_max (fun f => box_w f * box_h f) faces in
    let x := box_x face in
    let y := box_y face in
    let w := box_w face in
    let h := box_h face in
    let face_roi := slice2 gray y (y + h) x (x + w) in
    let? eyes := eye_cascade_detectMultiScale face_roi in
    let eyes_full :=
      map (fun e => Box (x + box_x e) (y + box_y e) (box_w e) (box_h e)) eyes in
    Ok (Some (face, eyes_full)).

(** Lines 139-146 of [process_image]: the crop, and the resize when the crop is
    not 512x512. The region is the tuple [(left, top, right, bottom)]. *)
Definition crop_and_resize (image : ndarray) (region : Z * Z * Z * Z) : res ndarray :=
  let '(left_, top_, right_, bottom_) := region in
  let cropped := slice2 image top_ bottom_ left_ right_ in
  if negb (shape0 cropped =? 512) || negb (shape1 cropped =? 512) then
    cv2_resize cropped (512, 512) INTER_LANCZOS4
  else
    Ok cropped.

(** The body of the [try] of [process_image]. *)
Definition process_image_body (image_path : Path) (output_folder : string) : M bool :=
  image <- cv2_imread (str image_path) ;;
  match image with
  | None =>
      _ <- py_print (Could_not_read image_path) ;;
      ret false
  | Some image =>
      detected <- lift (detect_face_and_eyes image) ;;
      match detected with
      | None =>
          _ <- py_print (No_face_detected image_path) ;;
          ret false
      | Some (face, eyes) =>
          region <- lift (calculate_crop_region image face eyes) ;;
          final_image <- lift (crop_and_resize image region) ;;
          let output_path :=
            mk_Path output_folder ("processed_" ++ name image_path)%string in
          _ <- cv2_imwrite (str output_path) final_image ;;
          _ <- py_print (Processed (name image_path)) ;;
          ret true
      end
  end.

(** [process_image]: the [except] block prints the error, then returns
    [False]. *)
Definition process_image (image_path : Path) (output_folder : string) : M bool :=
  try_except (process_image_body image_path output_folder)
    (fun e =>
       _ <- py_print (Error_processing image_path e) ;;
       ret false).

(** The loop of [process_folder], with its two counters. *)
Fixpoint process_loop (image_files : list Path) (output_folder : string)
    (successful failed : Z) : M (Z * Z) :=
  match image_files with
  | [] => ret (successful, failed)
  | image_file :: rest =>
      ok <- process_image image_file output_folder ;;
      if ok : bool then process_loop rest output_folder (successful + 1) failed
      else process_loop rest output_folder successful (failed + 1)
  end.

(** [process_folder]. *)
Definition process_folder (input_folder output_folder : string) : M bool :=
  image_files <- get_image_files input_folder ;;
  match image_files with
  | [] => ret false
  | _ :: _ =>
      _ <- call_mkdir output_folder ;;
      '(successful, failed) <- process_loop image_files output_folder 0 0 ;;
      ret (successful >? 0)
  end.

End Processor.

(* ================================================================== *)
(** ** The specification's vocabulary *)

Module Spec.

(** The centre of a bounding box, with integer division. *)
Definition center (b : box) : Z * Z :=
  (box_x b + box_w b / 2, box_y b + box_h b / 2).

(** The midpoint of two points, each coordinate integer-averaged. *)
Definition midpoint (p q : Z * Z) : Z * Z :=
  ((fst p + fst q) / 2, (snd p + snd q) / 2).

Record CropRegion : Type := mk_CropRegion {
  region_left : Z;
  region_top : Z;
  region_right : Z;
  region_bottom : Z
}.

(** [compute_crop_region], step by step as the specification words it;
    [image_dims] is [(width, height)]. *)
Definition compute_crop_region (anchor image_dims : Z * Z) (target_size : Z)
    (target_anchor : Z * Z) : CropRegion :=
  let width := fst image_dims in
  let height := snd image_dims in
  (* 1 *)
  let left1 := fst anchor - fst target_anchor in
  let top1 := snd anchor - snd target_anchor in
  let right1 := left1 + target_size in
  let bottom1 := top1 + target_size in
  (* 2: horizontal clamp *)
  let right2 :=
    if left1 <? 0 then target_size else if width <? right1 then width else right1 in
  let left2 :=
    if left1 <? 0 then 0 else if width <? right1 then right2 - target_size else left1 in
  (* 3: vertical clamp *)
  let bottom3 :=
    if top1 <? 0 then target_size else if height <? bottom1 then height else bottom1 in
  let top3 :=
    if top1 <? 0 then 0 else if height <? bottom1 then bottom3 - target_size else top1 in
  (* 4: final safety clamp *)
  let left4 := Z.max 0 left2 in
  let top4 := Z.max 0 top3 in
  let right4 := Z.min width (left4 + target_size) in
  let bottom4 := Z.min height (top4 + target_size) in
  (* 5 *)
  mk_CropRegion left4 top4 right4 bottom4.

Definition as_tuple (r : CropRegion) : Z * Z * Z * Z :=
  (region_left r, region_top r, region_right r, region_bottom r).

(** A region lies inside an image of the given extent and is not empty. *)
Definition inside (r : Z * Z * Z * Z) (width height : Z) : Prop :=
  let '(l, t, r, b) := r in
  0 <= l < r /\ r <= width /\ 0 <= t < b /\ b <= height.

(** The box [b], standing between [before] and [after] in the list
    [before ++ b :: after], is the earliest box of minimal x. *)
Definition is_left_pick (before : list box) (b : box) (after : list box) : bool :=
  forallb (fun e => box_x b <? box_x e) before &&
  forallb (fun e => box_x b <=? box_x e) after.

(** The box [b], at that place, is the latest box of maximal x. *)
Definition is_right_pick (before : list box) (b : box) (after : list box) : bool :=
  forallb (fun e => box_x e <=? box_x b) before &&
  forallb (fun e => box_x e <? box_x b) after.

Definition earliest_min_x (eyes : list box) (b : box) : Prop :=
  exists before after, eyes = before ++ b :: after /\ is_left_pick before b after = true.

Definition latest_max_x (eyes : list box) (b : box) : Prop :=
  exists before after, eyes = before ++ b :: after /\ is_right_pick before b after = true.

(** The file names given to [cv2.imread], and the images given to
    [cv2.imwrite], along a trace. *)
Definition imreads (t : trace) : list string :=
  flat_map (fun ev => match ev with Imread f => [f] | _ => [] end) t.

Definition imwrites (t : trace) : list (string * ndarray) :=
  flat_map (fun ev => match ev with Imwrite f img => [(f, img)] | _ => [] end) t.

End Spec.

(* ================================================================== *)
(** ** Statements about runs *)

Section Runs.
Context {env : Environment}.

(** What [process_image] computes from a decoded image before it writes:
    [None] when no face is found, the final image otherwise. *)
Definition prepare (image : ndarray) : res (option ndarray) :=
  let? detected := detect_face_and_eyes image in
  match detected with
  | None => Ok None
  | Some (face, eyes) =>
      let? region := calculate_crop_region image face eyes in
      let? final_image := crop_and_resize image region in
      Ok (Some final_image)
  end.

(** [runs_in_order files out t oks t']: [process_image] is called on each file
    of [files], in that order and starting from the trace [t]; each call
    returns, the results are [oks], and the trace ends as [t']. *)
Inductive runs_in_order (output_folder : string)
  : list Path -> trace -> list bool -> trace -> Prop :=
| runs_done (t : trace) : runs_in_order output_folder [] t [] t
| runs_next (image_file : Path) (rest : list Path) (t t1 t2 : trace)
    (ok : bool) (oks : list bool) :
    process_image image_file output_folder t = (t1, Ok ok) ->
    runs_in_order output_folder rest t1 oks t2 ->
    runs_in_order output_folder (image_file :: rest) t (ok :: oks) t2.

End Runs.

(** The eye box [e'] is the box [e] moved by the offset of [face], with the
    same width and height. *)
Definition translated_by (face e e' : box) : Prop :=
  box_x e' = box_x face + box_x e /\ box_y e' = box_y face + box_y e /\
  box_w e' = box_w e /\ box_h e' = box_h e.

(** The images given to [cv2.imwrite] in a stretch of trace are all 512x512. *)
Definition writes_512 (t : trace) : Prop :=
  forall f img, In (Imwrite f img) t -> shape0 img = 512 /\ shape1 img = 512.

(* ================================================================== *)
(** ** A folder of five photographs *)

Module Example.

Definition blank (h w : Z) : ndarray :=
  {| shape0 := h; shape1 := w; data := fun _ _ => [0; 0; 0] |}.

Definition image_640x480 : ndarray := blank 480 640.

(** Five files: [c.jpg] cannot be decoded, [d.jpg] is a 300x300 picture in
    which the cascade finds no face, the others are 1000x800 portraits with
    two face candidates and two eyes. *)
Definition files : list Path :=
  map (mk_Path "in") ["a.jpg"; "b.jpg"; "c.jpg"; "d.jpg"; "e.jpg"]%string.

#[local] Instance world : Environment := {|
  print := fun _ _ => Ok tt;
  iterdir := fun _ _ =>
    Ok (map (fun p => mk_DirEntry p true ".jpg") files ++
        [mk_DirEntry (mk_Path "in" "notes.txt") true ".txt";
         mk_DirEntry (mk_Path "in" "old.png") false ".png"]);
  mkdir := fun _ _ => Ok tt;
  imread := fun _ filename =>
    if String.eqb filename "in/c.jpg" then Ok None
    else if String.eqb filename "in/d.jpg" then Ok (Some (blank 300 300))
    else Ok (Some (blank 800 1000));
  imwrite := fun _ _ _ => Ok true;
  cvtColor_BGR2GRAY := fun image =>
    Ok {| shape0 := shape0 image; shape1 := shape1 image; data := fun _ _ => [0] |};
  face_cascade_detectMultiScale := fun gray =>
    if shape0 gray =? 300 then Ok []
    else Ok [Box 10 10 40 40; Box 400 200 200 220];
  eye_cascade_detectMultiScale := fun _ =>
    Ok [Box 120 60 30 30; Box 40 62 30 30];
  resample := fun _ src _ _ r c => data src r c
|}.


End Example.

(* ================================================================== *)
(** ** [main] *)




(* ================================================================== *)
(** ** More vocabulary for statements *)

(** The name [process_image] writes the result of [image_path] under. *)
Definition output_file (output_folder : string) (image_path : Path) : string :=
  str (mk_Path output_folder ("processed_" ++ name image_path)).

(** The [except] block of [process_image], entered at trace [t] with the
    exception [e]: [False] when the error can be printed, and what the print
    raises otherwise. *)
Definition handled {env : Environment} (image_path : Path) (t : trace)
    (e : Exception) : trace * res bool :=
  (t, match print t (Error_processing image_path e) with
      | Ok _ => Ok false
      | Raise e' => Raise e'
      end).

(** A [print] inside the [try], followed by [return b]. *)
Definition said {env : Environment} (image_path : Path) (t : trace)
    (msg : message) (b : bool) : trace * res bool :=
  match print t msg with
  | Ok _ => (t, Ok b)
  | Raise e => handled image_path t e
  end.


(** The elements of [l] that [mask] marks, in the order of [l]. *)
Fixpoint select {A : Type} (mask : list bool) (l : list A) : list A :=
  match mask, l with
  | b :: mask', a :: l' => if b then a :: select mask' l' else select mask' l'
  | _, _ => []
  end.

(** The test [get_image_files] makes on a directory entry, and the paths it
    keeps from a listing. *)
Definition is_image_entry (file_path : DirEntry) : bool :=
  entry_is_file file_path &&
  existsb (String.eqb (entry_suffix_lower file_path)) supported_formats.

Definition listed_images (entries : list DirEntry) : list Path :=
  map entry_path (filter is_image_entry entries).

(** An event of [process_image]: a read or a write of an image. *)
Definition is_image_event (ev : event) : Prop :=
  (exists f, ev = Imread f) \/ (exists f img, ev = Imwrite f img).

(** The area a face candidate is ranked by. *)
Definition area (f : box) : Z := box_w f * box_h f.

(** An eye box of the face's sub-region, in full-image coordinates. *)
Definition to_full_image (face e : box) : box :=
  Box (box_x face + box_x e) (box_y face + box_y e) (box_w e) (box_h e).

Module Desk.




(** A disk on which the output folder cannot be created. *)
Definition no_mkdir : Environment := {|
  print := @print Example.world;
  iterdir := @iterdir Example.world;
  mkdir := fun _ _ => Raise (OtherException "permission denied");
  imread := @imread Example.world;
  imwrite := @imwrite Example.world;
  cvtColor_BGR2GRAY := @cvtColor_BGR2GRAY Example.world;
  face_cascade_detectMultiScale := @face_cascade_detectMultiScale Example.world;
  eye_cascade_detectMultiScale := @eye_cascade_detectMultiScale Example.world;
  resample := @resample Example.world
|}.

(** A disk on which [imwrite] answers [False] without raising. *)
Definition silent_disk : Environment := {|
  print := @print Example.world;
  iterdir := @iterdir Example.world;
  mkdir := @mkdir Example.world;
  imread := @imread Example.world;
  imwrite := fun _ _ _ => Ok false;
  cvtColor_BGR2GRAY := @cvtColor_BGR2GRAY Example.world;
  face_cascade_detectMultiScale := @face_cascade_detectMultiScale Example.world;
  eye_cascade_detectMultiScale := @eye_cascade_detectMultiScale Example.world;
  resample := @resample Example.world
|}.

(** An OpenCV build whose colour conversion refuses every image. *)
Definition no_gray : Environment := {|
  print := @print Example.world;
  iterdir := @iterdir Example.world;
  mkdir := @mkdir Example.world;
  imread := @imread Example.world;
  imwrite := @imwrite Example.world;
  cvtColor_BGR2GRAY := fun _ => Raise (cv2_error "cvtColor");
  face_cascade_detectMultiScale := @face_cascade_detectMultiScale Example.world;
  eye_cascade_detectMultiScale := @eye_cascade_detectMultiScale Example.world;
  resample := @resample Example.world
|}.

(** A folder that cannot be listed. *)
Definition no_listing : Environment := {|
  print := @print Example.world;
  iterdir := fun _ _ => Raise (OtherException "not a directory");
  mkdir := @mkdir Example.world;
  imread := @imread Example.world;
  imwrite := @imwrite Example.world;
  cvtColor_BGR2GRAY := @cvtColor_BGR2GRAY Example.world;
  face_cascade_detectMultiScale := @face_cascade_detectMultiScale Example.world;
  eye_cascade_detectMultiScale := @eye_cascade_detectMultiScale Example.world;
  resample := @resample Example.world
|}.

(** A standard output that cannot encode the name of [c.jpg]: every message
    that shows its path raises. *)
Definition strict_stdout : Environment := {|
  print := fun _ msg =>
    match msg with
    | Could_not_read _ | Error_processing _ _ =>
        Raise (OtherException "UnicodeEncodeError")
    | _ => Ok tt
    end;
  iterdir := @iterdir Example.world;
  mkdir := @mkdir Example.world;
  imread := @imread Example.world;
  imwrite := @imwrite Example.world;
  cvtColor_BGR2GRAY := @cvtColor_BGR2GRAY Example.world;
  face_cascade_detectMultiScale := @face_cascade_detectMultiScale Example.world;
  eye_cascade_detectMultiScale := @eye_cascade_detectMultiScale Example.world;
  resample := @resample Example.world
|}.

(** A standard output that refuses the check mark of the success message. *)
Definition no_check_mark : Environment := {|
  print := fun _ msg =>
    match msg with
    | Processed _ => Raise (OtherException "UnicodeEncodeError")
    | _ => Ok tt
    end;
  iterdir := @iterdir Example.world;
  mkdir := @mkdir Example.world;
  imread := @imread Example.world;
  imwrite := @imwrite Example.world;
  cvtColor_BGR2GRAY := @cvtColor_BGR2GRAY Example.world;
  face_cascade_detectMultiScale := @face_cascade_detectMultiScale Example.world;
  eye_cascade_detectMultiScale := @eye_cascade_detectMultiScale Example.world;
  resample := @resample Example.world
|}.

End Desk.

(* ================================================================== *)
(** * Properties *)

(** ** Facts on the builtins *)

Lemma insert_by_length {A : Type} (key : A -> Z) (e : A) (l : list A) :
  List.length (insert_by key e l) = S (List.length l).
Proof.
  induction l as [|y l IH]; simpl; [reflexivity|].
  destruct (key e <=? key y); simpl; [reflexivity | now rewrite IH].
Qed.

Lemma py_sorted_length {A : Type} (key : A -> Z) (l : list A) :
  List.length (py_sorted key l) = List.length l.
Proof.
  induction l as [|e l IH]; simpl; [reflexivity|].
  now rewrite insert_by_length, IH.
Qed.

Lemma insert_by_perm {A : Type} (key : A -> Z) (e : A) (l : list A) :
  Permutation (insert_by key e l) (e :: l).
Proof.
  induction l as [|y l IH]; simpl; [apply Permutation_refl|].
  destruct (key e <=? key y); [apply Permutation_refl|].
  eapply perm_trans; [apply perm_skip, IH | apply perm_swap].
Qed.

Lemma py_sorted_perm {A : Type} (key : A -> Z) (l : list A) :
  Permutation (py_sorted key l) l.
Proof.
  induction l as [|e l IH]; simpl; [constructor|].
  eapply perm_trans; [apply insert_by_perm | now apply perm_skip].
Qed.

(** The result is in non-decreasing order of the keys. *)
Lemma insert_by_sorted {A : Type} (key : A -> Z) (e : A) (s : list A) :
  StronglySorted (fun a b => key a <= key b) s ->
  StronglySorted (fun a b => key a <= key b) (insert_by key e s).
Proof.
  induction 1 as [|y s Hs IH Hy]; simpl.
  - repeat constructor.
  - destruct (Z.leb_spec (key e) (key y)) as [Hle | Hlt].
    + constructor; [now constructor|].
      constructor; [exact Hle|].
      eapply Forall_impl; [|exact Hy]. cbv beta. intros z Hz. lia.
    + constructor; [exact IH|].
      eapply Permutation_Forall; [apply Permutation_sym, insert_by_perm|].
      constructor; [lia | exact Hy].
Qed.

Lemma py_sorted_sorted {A : Type} (key : A -> Z) (l : list A) :
  StronglySorted (fun a b => key a <= key b) (py_sorted key l).
Proof.
  induction l as [|e l IH]; simpl; [constructor | now apply insert_by_sorted].
Qed.

(** The sort is stable: the elements of any one key keep the order they have
    in the argument. *)
Lemma insert_by_filter {A : Type} (key : A -> Z) (k : Z) (e : A) (s : list A) :
  filter (fun y => key y =? k) (insert_by key e s) =
  filter (fun y => key y =? k) (e :: s).
Proof.
  induction s as [|y s IH]; [reflexivity|]. simpl insert_by.
  destruct (Z.leb_spec (key e) (key y)) as [Hle | Hlt]; [reflexivity|].
  cbn [filter] in *. rewrite IH.
  destruct (Z.eqb_spec (key e) k), (Z.eqb_spec (key y) k); try reflexivity. lia.
Qed.

Lemma py_sorted_stable {A : Type} (key : A -> Z) (k : Z) (l : list A) :
  filter (fun y => key y =? k) (py_sorted key l) = filter (fun y => key y =? k) l.
Proof.
  induction l as [|e l IH]; [reflexivity|].
  simpl py_sorted. rewrite insert_by_filter. cbn [filter]. now rewrite IH.
Qed.

(** An element whose key exceeds every key of [s] is inserted at the end. *)
Lemma insert_by_above {A : Type} (key : A -> Z) (e : A) (s : list A) :
  Forall (fun y => key y < key e) s -> insert_by key e s = s ++ [e].
Proof.
  induction 1 as [|y s Hy _ IH]; simpl; [reflexivity|].
  destruct (Z.leb_spec (key e) (key y)); [lia | now rewrite IH].
Qed.

(** An element whose key does not exceed the last key is inserted before the
    last element. *)
Lemma insert_by_below {A : Type} (key : A -> Z) (e r : A) (s : list A) :
  key e <= key r -> insert_by key e (s ++ [r]) = insert_by key e s ++ [r].
Proof.
  intros Hr. induction s as [|y s IH]; simpl.
  - destruct (Z.leb_spec (key e) (key r)); [reflexivity | lia].
  - destruct (key e <=? key y); [reflexivity | now rewrite IH].
Qed.

Lemma py_getitem_first {A : Type} (a : A) (l : list A) :
  py_getitem (a :: l) 0 = Ok a.
Proof.
  unfold py_getitem, len. simpl Z.ltb. cbv iota.
  destruct (Z.leb_spec (Z.of_nat (List.length (a :: l))) 0) as [H|H].
  - simpl in H. lia.
  - reflexivity.
Qed.

Lemma py_getitem_last {A : Type} (s : list A) (r : A) :
  py_getitem (s ++ [r]) (-1) = Ok r.
Proof.
  unfold py_getitem.
  assert (Hl : len (s ++ [r]) = Z.of_nat (List.length s) + 1).
  { unfold len. rewrite length_app. simpl List.length. lia. }
  rewrite Hl. change (-1 <? 0) with true. cbv iota.
  replace (-1 + (Z.of_nat (List.length s) + 1)) with (Z.of_nat (List.length s)) by lia.
  destruct (Z.ltb_spec (Z.of_nat (List.length s)) 0); [lia|].
  destruct (Z.leb_spec (Z.of_nat (List.length s) + 1) (Z.of_nat (List.length s))); [lia|].
  cbn [orb]. rewrite Nat2Z.id, nth_error_app2, Nat.sub_diag by lia. reflexivity.
Qed.

(** ** Which eyes the sort selects *)

Lemma is_left_pick_iff (before : list box) (b : box) (after : list box) :
  Spec.is_left_pick before b after = true <->
  (forall e, In e before -> box_x b < box_x e) /\
  (forall e, In e after -> box_x b <= box_x e).
Proof.
  unfold Spec.is_left_pick. rewrite andb_true_iff, !forallb_forall.
  split; intros [H1 H2]; split; intros e He.
  - now apply Z.ltb_lt, H1.
  - now apply Z.leb_le, H2.
  - now apply Z.ltb_lt, H1.
  - now apply Z.leb_le, H2.
Qed.

Lemma is_right_pick_iff (before : list box) (b : box) (after : list box) :
  Spec.is_right_pick before b after = true <->
  (forall e, In e before -> box_x e <= box_x b) /\
  (forall e, In e after -> box_x e < box_x b).
Proof.
  unfold Spec.is_right_pick. rewrite andb_true_iff, !forallb_forall.
  split; intros [H1 H2]; split; intros e He.
  - now apply Z.leb_le, H1.
  - now apply Z.ltb_lt, H2.
  - now apply Z.leb_le, H1.
  - now apply Z.ltb_lt, H2.
Qed.

(** The selected boxes bound every x of the list. *)
Lemma earliest_min_x_least (eyes : list box) (l : box) :
  Spec.earliest_min_x eyes l ->
  In l eyes /\ forall e, In e eyes -> box_x l <= box_x e.
Proof.
  intros (pre & post & -> & H). apply is_left_pick_iff in H as [H1 H2]. split.
  - apply in_elt.
  - intros e He. apply in_app_or in He as [He | [<- | He]].
    + apply H1 in He. lia.
    + lia.
    + now apply H2.
Qed.

Lemma latest_max_x_greatest (eyes : list box) (r : box) :
  Spec.latest_max_x eyes r ->
  In r eyes /\ forall e, In e eyes -> box_x e <= box_x r.
Proof.
  intros (pre & post & -> & H). apply is_right_pick_iff in H as [H1 H2]. split.
  - apply in_elt.
  - intros e He. apply in_app_or in He as [He | [<- | He]].
    + now apply H1.
    + lia.
    + apply H2 in He. lia.
Qed.

(** [eyes_sorted[0]] is the earliest box of minimal x. *)
Lemma py_sorted_first (eyes : list box) :
  eyes <> [] ->
  exists l s, py_sorted box_x eyes = l :: s /\ Spec.earliest_min_x eyes l.
Proof.
  induction eyes as [|e eyes IH]; [congruence | intros _].
  destruct eyes as [|e' eyes].
  - exists e, []. split; [reflexivity|]. now exists [], [].
  - destruct IH as (l & s & Hs & Hl); [discriminate|].
    change (py_sorted box_x (e :: e' :: eyes))
      with (insert_by box_x e (py_sorted box_x (e' :: eyes))).
    rewrite Hs. simpl insert_by.
    destruct (Z.leb_spec (box_x e) (box_x l)) as [Hle | Hlt].
    + exists e, (l :: s). split; [reflexivity|].
      exists [], (e' :: eyes). split; [reflexivity|].
      apply is_left_pick_iff. split; [intros ? []|].
      intros y Hy. apply earliest_min_x_least in Hl as [_ Hl].
      specialize (Hl y Hy). lia.
    + exists l, (insert_by box_x e s). split; [reflexivity|].
      destruct Hl as (pre & post & Heq & Hp).
      exists (e :: pre), post. split; [now rewrite Heq|].
      apply is_left_pick_iff. apply is_left_pick_iff in Hp as [H1 H2].
      split; [|assumption]. intros y [<- | Hy]; [lia | now apply H1].
Qed.

(** [eyes_sorted[-1]] is the latest box of maximal x. *)
Lemma py_sorted_final (eyes : list box) :
  eyes <> [] ->
  exists s r, py_sorted box_x eyes = s ++ [r] /\ Spec.latest_max_x eyes r.
Proof.
  induction eyes as [|e eyes IH]; [congruence | intros _].
  destruct eyes as [|e' eyes].
  - exists [], e. split; [reflexivity|]. now exists [], [].
  - destruct IH as (s & r & Hs & Hr); [discriminate|].
    change (py_sorted box_x (e :: e' :: eyes))
      with (insert_by box_x e (py_sorted box_x (e' :: eyes))).
    destruct (Z.leb_spec (box_x e) (box_x r)) as [Hle | Hlt].
    + exists (insert_by box_x e s), r. split.
      * rewrite Hs. now apply insert_by_below.
      * destruct Hr as (pre & post & Heq & Hp).
        exists (e :: pre), post. split; [now rewrite Heq|].
        apply is_right_pick_iff. apply is_right_pick_iff in Hp as [H1 H2].
        split; [|assumption]. intros y [<- | Hy]; [lia | now apply H1].
    + exists (py_sorted box_x (e' :: eyes)), e. split.
      * apply insert_by_above. apply Forall_forall. intros y Hy.
        apply latest_max_x_greatest in Hr as [_ Hr].
        assert (In y (e' :: eyes)) as Hin
          by (eapply Permutation_in; [apply py_sorted_perm | exact Hy]).
        specialize (Hr y Hin). lia.
      * exists [], (e' :: eyes). split; [reflexivity|].
        apply is_right_pick_iff. split; [intros ? []|].
        intros y Hy. apply latest_max_x_greatest in Hr as [_ Hr].
        specialize (Hr y Hy). lia.
Qed.

(** Two ways of cutting one list at an element are the same cut, or one
    element lies before the other. *)
Lemma cut_compare {A : Type} (l1 : list A) (a : A) (l2 p : list A) (b : A) (q : list A) :
  l1 ++ a :: l2 = p ++ b :: q ->
  (l1 = p /\ a = b /\ l2 = q) \/
  (exists m, p = l1 ++ a :: m /\ l2 = m ++ b :: q) \/
  (exists m, l1 = p ++ b :: m /\ q = m ++ a :: l2).
Proof.
  revert p. induction l1 as [|x l1 IH]; intros [|y p] H; simpl in H.
  - injection H as -> ->. now left.
  - injection H as -> ->. right; left. now exists p.
  - injection H as -> <-. right; right. now exists l1.
  - injection H as -> H. destruct (IH p H) as [(-> & -> & ->) | [(m & -> & ->) | (m & -> & ->)]].
    + now left.
    + right; left. now exists m.
    + right; right. now exists m.
Qed.

Lemma earliest_min_x_unique (eyes : list box) (l l' : box) :
  Spec.earliest_min_x eyes l -> Spec.earliest_min_x eyes l' -> l = l'.
Proof.
  intros (p & q & -> & H) (p' & q' & Heq & H').
  apply is_left_pick_iff in H as [H1 H2]. apply is_left_pick_iff in H' as [H1' H2'].
  apply cut_compare in Heq as [(_ & -> & _) | [(m & -> & ->) | (m & -> & ->)]].
  - reflexivity.
  - assert (box_x l' < box_x l) by (apply H1', in_elt).
    assert (box_x l <= box_x l') by (apply H2, in_elt). lia.
  - assert (box_x l < box_x l') by (apply H1, in_elt).
    assert (box_x l' <= box_x l) by (apply H2', in_elt). lia.
Qed.

Lemma latest_max_x_unique (eyes : list box) (r r' : box) :
  Spec.latest_max_x eyes r -> Spec.latest_max_x eyes r' -> r = r'.
Proof.
  intros (p & q & -> & H) (p' & q' & Heq & H').
  apply is_right_pick_iff in H as [H1 H2]. apply is_right_pick_iff in H' as [H1' H2'].
  apply cut_compare in Heq as [(_ & -> & _) | [(m & -> & ->) | (m & -> & ->)]].
  - reflexivity.
  - assert (box_x r <= box_x r') by (apply H1', in_elt).
    assert (box_x r' < box_x r) by (apply H2, in_elt). lia.
  - assert (box_x r' <= box_x r) by (apply H1, in_elt).
    assert (box_x r < box_x r') by (apply H2', in_elt). lia.
Qed.

(** ** The face position *)

Lemma len_nonempty {A : Type} (l : list A) : 2 <= len l -> l <> [].
Proof. intros H ->. unfold len in H. simpl in H. lia. Qed.

(** With two eyes or more the position is the midpoint of the centres of the
    two selected eyes. *)
Lemma face_position_eyes (face : box) (eyes : list box) :
  2 <= len eyes ->
  exists l r,
    Spec.earliest_min_x eyes l /\ Spec.latest_max_x eyes r /\
    face_position face eyes = Ok (Spec.midpoint (Spec.center l) (Spec.center r)).
Proof.
  intros Hlen. pose proof (len_nonempty _ Hlen) as Hne.
  destruct (py_sorted_first eyes Hne) as (l & s & Hs & Hl).
  destruct (py_sorted_final eyes Hne) as (s' & r & Hs' & Hr).
  exists l, r. split; [assumption|]. split; [assumption|].
  unfold face_position.
  destruct (Z.geb_spec (len eyes) 2) as [_|]; [|lia].
  cbv zeta. rewrite Hs at 1. rewrite py_getitem_first. cbn [res_bind].
  rewrite Hs', py_getitem_last. cbn [res_bind].
  unfold Spec.midpoint, Spec.center. cbn [fst snd].
  now rewrite !Z.add_assoc.
Qed.

(** With fewer than two eyes it is the centre of the face box. *)
Lemma face_position_face (face : box) (eyes : list box) :
  len eyes < 2 -> face_position face eyes = Ok (Spec.center face).
Proof.
  intros Hlen. unfold face_position.
  destruct (Z.geb_spec (len eyes) 2); [lia | reflexivity].
Qed.

(** The guard [len(eyes) >= 2] keeps both index operations in range. *)
Lemma face_position_total (face : box) (eyes : list box) :
  exists p, face_position face eyes = Ok p.
Proof.
  destruct (Z.le_gt_cases 2 (len eyes)) as [H | H].
  - destruct (face_position_eyes face eyes H) as (l & r & _ & _ & ->). eauto.
  - rewrite face_position_face by lia. eauto.
Qed.

(** C3: with two or more eye boxes the anchor is the integer midpoint of the
    centres of a box of minimal x and a box of maximal x of the list, each
    centre being (x + w/2, y + h/2) with integer division; with fewer than two
    it is the centre of the face box; eyes (100,100,20,20) and (180,100,20,20)
    give (150,110). *)
Theorem anchor_point_rule (face : box) (eyes : list box) :
  (2 <= len eyes ->
   exists l r,
     In l eyes /\ (forall e, In e eyes -> box_x l <= box_x e) /\
     In r eyes /\ (forall e, In e eyes -> box_x e <= box_x r) /\
     face_position face eyes = Ok (Spec.midpoint (Spec.center l) (Spec.center r))) /\
  (len eyes < 2 -> face_position face eyes = Ok (Spec.center face)) /\
  face_position face [Box 100 100 20 20; Box 180 100 20 20] = Ok (150, 110).
Proof.
  split; [|split].
  - intros H. destruct (face_position_eyes face eyes H) as (l & r & Hl & Hr & Heq).
    apply earliest_min_x_least in Hl as [Hl1 Hl2].
    apply latest_max_x_greatest in Hr as [Hr1 Hr2].
    exists l, r. repeat split; assumption.
  - apply face_position_face.
  - reflexivity.
Qed.

Lemma anchor_point_rule_witness :
  (exists l r,
     In l [Box 30 40 10 10; Box 10 42 12 8; Box 20 0 4 4] /\
     In r [Box 30 40 10 10; Box 10 42 12 8; Box 20 0 4 4] /\
     face_position (Box 0 0 50 60) [Box 30 40 10 10; Box 10 42 12 8; Box 20 0 4 4]
       = Ok (Spec.midpoint (Spec.center l) (Spec.center r))) /\
  face_position (Box 0 0 50 60) [Box 7 7 9 9] = Ok (25, 30).
Proof.
  split.
  - destruct (anchor_point_rule (Box 0 0 50 60)
                [Box 30 40 10 10; Box 10 42 12 8; Box 20 0 4 4]) as [H _].
    destruct H as (l & r & Hl & _ & Hr & _ & Heq).
    + unfold len. simpl. lia.
    + exists l, r. repeat split; assumption.
  - destruct (anchor_point_rule (Box 0 0 50 60) [Box 7 7 9 9]) as (_ & H & _).
    apply H. unfold len. simpl. lia.
Defined.

(** C10: the left eye is the earliest box of minimal x in list order and the
    right eye the latest box of maximal x; and some list with tied
    x-coordinates has a permutation with a different anchor point. *)
Theorem eye_tie_breaking :
  (forall (face : box) (eyes : list box),
     2 <= len eyes ->
     exists before_l l after_l before_r r after_r,
       eyes = before_l ++ l :: after_l /\
       (forall e, In e before_l -> box_x l < box_x e) /\
       (forall e, In e after_l -> box_x l <= box_x e) /\
       eyes = before_r ++ r :: after_r /\
       (forall e, In e before_r -> box_x e <= box_x r) /\
       (forall e, In e after_r -> box_x e < box_x r) /\
       face_position face eyes = Ok (Spec.midpoint (Spec.center l) (Spec.center r))) /\
  (exists (face : box) (eyes eyes' : list box),
     Permutation eyes eyes' /\ face_position face eyes <> face_position face eyes').
Proof.
  split.
  - intros face eyes H.
    destruct (face_position_eyes face eyes H)
      as (l & r & (bl & al & El & Hl) & (br & ar & Er & Hr) & Heq).
    apply is_left_pick_iff in Hl as [Hl1 Hl2].
    apply is_right_pick_iff in Hr as [Hr1 Hr2].
    exists bl, l, al, br, r, ar. repeat split; assumption.
  - exists (Box 0 0 100 100),
      [Box 10 10 4 4; Box 10 30 4 4; Box 50 10 4 4],
      [Box 10 30 4 4; Box 10 10 4 4; Box 50 10 4 4].
    split; [apply perm_swap | discriminate].
Qed.

Lemma eye_tie_breaking_witness :
  exists l r,
    face_position (Box 0 0 100 100) [Box 10 10 4 4; Box 10 30 4 4; Box 50 10 4 4]
      = Ok (Spec.midpoint (Spec.center l) (Spec.center r)).
Proof.
  destruct eye_tie_breaking as [H _].
  destruct (H (Box 0 0 100 100) [Box 10 10 4 4; Box 10 30 4 4; Box 50 10 4 4])
    as (bl & l & al & br & r & ar & _ & _ & _ & _ & _ & _ & Heq).
  - unfold len. simpl. lia.
  - exists l, r. exact Heq.
Defined.

(** ** Removing a box that was not selected *)

Lemma earliest_min_x_remove (l1 : list box) (b : box) (l2 : list box) (l : box) :
  Spec.earliest_min_x (l1 ++ b :: l2) l ->
  Spec.is_left_pick l1 b l2 = false ->
  Spec.earliest_min_x (l1 ++ l2) l.
Proof.
  intros (p & q & Heq & Hp) Hb.
  apply cut_compare in Heq as [(-> & -> & ->) | [(m & -> & ->) | (m & -> & ->)]].
  - congruence.
  - exists (l1 ++ m), q. split; [now rewrite app_assoc|].
    apply is_left_pick_iff. apply is_left_pick_iff in Hp as [H1 H2].
    split; [|assumption]. intros e He. apply H1.
    rewrite in_app_iff in *. simpl. tauto.
  - exists p, (m ++ l2). split; [now rewrite <- app_assoc|].
    apply is_left_pick_iff. apply is_left_pick_iff in Hp as [H1 H2].
    split; [assumption|]. intros e He. apply H2.
    rewrite in_app_iff in *. simpl. tauto.
Qed.

Lemma latest_max_x_remove (l1 : list box) (b : box) (l2 : list box) (r : box) :
  Spec.latest_max_x (l1 ++ b :: l2) r ->
  Spec.is_right_pick l1 b l2 = false ->
  Spec.latest_max_x (l1 ++ l2) r.
Proof.
  intros (p & q & Heq & Hp) Hb.
  apply cut_compare in Heq as [(-> & -> & ->) | [(m & -> & ->) | (m & -> & ->)]].
  - congruence.
  - exists (l1 ++ m), q. split; [now rewrite app_assoc|].
    apply is_right_pick_iff. apply is_right_pick_iff in Hp as [H1 H2].
    split; [|assumption]. intros e He. apply H1.
    rewrite in_app_iff in *. simpl. tauto.
  - exists p, (m ++ l2). split; [now rewrite <- app_assoc|].
    apply is_right_pick_iff. apply is_right_pick_iff in Hp as [H1 H2].
    split; [assumption|]. intros e He. apply H2.
    rewrite in_app_iff in *. simpl. tauto.
Qed.

(** A box that is neither selection leaves two boxes or more behind it. *)
Lemma unselected_leaves_two (l1 : list box) (b : box) (l2 : list box) :
  Spec.is_left_pick l1 b l2 = false ->
  Spec.is_right_pick l1 b l2 = false ->
  2 <= len (l1 ++ l2).
Proof.
  unfold Spec.is_left_pick, Spec.is_right_pick, len.
  destruct l1 as [|a [|a' l1]]; destruct l2 as [|c [|c' l2]]; simpl forallb;
    intros HL HR; rewrite ?length_app; simpl List.length; lia.
Qed.

(** The position is a function of the two selected eyes alone. *)
Lemma face_position_of_picks (face : box) (eyes : list box) (l r : box) :
  2 <= len eyes ->
  Spec.earliest_min_x eyes l -> Spec.latest_max_x eyes r ->
  face_position face eyes = Ok (Spec.midpoint (Spec.center l) (Spec.center r)).
Proof.
  intros H Hl Hr.
  destruct (face_position_eyes face eyes H) as (l' & r' & Hl' & Hr' & ->).
  now rewrite (earliest_min_x_unique _ _ _ Hl Hl'), (latest_max_x_unique _ _ _ Hr Hr').
Qed.

(** C8: with two or more eye boxes the anchor depends only on the selected
    minimum-x box and maximum-x box: lists with the same two selections have
    the same anchor, removing a box that is neither of them leaves the anchor
    unchanged, and the face box does not matter. *)
Theorem anchor_depends_on_extremes :
  (forall (face face' : box) (eyes eyes' : list box) (l r : box),
     2 <= len eyes -> 2 <= len eyes' ->
     Spec.earliest_min_x eyes l -> Spec.earliest_min_x eyes' l ->
     Spec.latest_max_x eyes r -> Spec.latest_max_x eyes' r ->
     face_position face eyes = face_position face' eyes') /\
  (forall (face : box) (l1 : list box) (b : box) (l2 : list box),
     2 <= len (l1 ++ b :: l2) ->
     Spec.is_left_pick l1 b l2 = false ->
     Spec.is_right_pick l1 b l2 = false ->
     face_position face (l1 ++ l2) = face_position face (l1 ++ b :: l2)) /\
  (forall (face face' : box) (eyes : list box),
     2 <= len eyes ->
     face_position face eyes = face_position face' eyes).
Proof.
  split; [|split].
  - intros face face' eyes eyes' l r H H' Hl Hl' Hr Hr'.
    now rewrite (face_position_of_picks face eyes l r),
      (face_position_of_picks face' eyes' l r).
  - intros face l1 b l2 H HL HR.
    destruct (face_position_eyes face _ H) as (l & r & Hl & Hr & ->).
    apply face_position_of_picks.
    + now apply unselected_leaves_two with b.
    + now apply earliest_min_x_remove with b.
    + now apply latest_max_x_remove with b.
  - intros face face' eyes H.
    destruct (face_position_eyes face eyes H) as (l & r & Hl & Hr & ->).
    symmetry. now apply face_position_of_picks.
Qed.

Lemma anchor_depends_on_extremes_witness :
  face_position (Box 0 0 9 9) ([Box 10 10 4 4] ++ [Box 50 10 4 4]) =
  face_position (Box 0 0 9 9) ([Box 10 10 4 4] ++ Box 10 30 4 4 :: [Box 50 10 4 4]) /\
  face_position (Box 0 0 9 9) [Box 10 10 4 4; Box 50 10 4 4] =
  face_position (Box 5 5 7 7) [Box 10 10 4 4; Box 50 10 4 4].
Proof.
  destruct anchor_depends_on_extremes as (_ & Hremove & Hface). split.
  - apply Hremove; [unfold len; simpl; lia | reflexivity | reflexivity].
  - apply Hface. unfold len; simpl; lia.
Defined.

(** ** The crop rectangle *)

(** Whatever the face position, the rectangle is a non-empty part of a
    non-empty image, as wide as 512 and the image width allow and as high as
    512 and the image height allow. *)
Lemma crop_window_bounds (w h face_x face_y : Z) :
  1 <= w -> 1 <= h ->
  exists l t r b,
    crop_window w h face_x face_y = (l, t, r, b) /\
    Spec.inside (l, t, r, b) w h /\
    r - l = Z.min 512 w /\ b - t = Z.min 512 h.
Proof.
  intros Hw Hh. unfold crop_window, Spec.inside. cbv zeta.
  destruct (Z.ltb_spec (face_x - 256) 0);
    [| destruct (Z.gtb_spec (face_x - 256 + 512) w)];
    (destruct (Z.ltb_spec (face_y - 170) 0);
      [| destruct (Z.gtb_spec (face_y - 170 + 512) h)]);
    do 4 eexists; (split; [reflexivity|]); lia.
Qed.

(** A slice between bounds that lie inside the array has the extent of the
    bounds. *)
Lemma slice2_shape (a : ndarray) (l t r b : Z) :
  Spec.inside (l, t, r, b) (shape1 a) (shape0 a) ->
  shape0 (slice2 a t b l r) = b - t /\ shape1 (slice2 a t b l r) = r - l.
Proof.
  unfold Spec.inside, slice2, slice_bound. cbn [shape0 shape1].
  intros (Hl & Hr & Ht & Hb).
  destruct (Z.ltb_spec t 0), (Z.ltb_spec b 0), (Z.ltb_spec l 0), (Z.ltb_spec r 0); lia.
Qed.

(** C1: the rectangle computed by the code is the one of the specification's
    algorithm (initial placement, one clamp per axis, final safety clamp), for
    every face position and every image extent; a 1000x1000 image with the
    anchor at (990,990) gives (488,488,1000,1000). *)
Theorem crop_region_follows_spec :
  (forall w h face_x face_y : Z,
     crop_window w h face_x face_y =
     Spec.as_tuple (Spec.compute_crop_region (face_x, face_y) (w, h) 512 (256, 170))) /\
  (forall (image : ndarray) (face : box) (eyes : list box),
     calculate_crop_region image face eyes =
     let? anchor := face_position face eyes in
     Ok (Spec.as_tuple
           (Spec.compute_crop_region anchor (shape1 image, shape0 image) 512 (256, 170)))) /\
  crop_window 1000 1000 990 990 = (488, 488, 1000, 1000).
Proof.
  assert (Hwin : forall w h face_x face_y : Z,
     crop_window w h face_x face_y =
     Spec.as_tuple (Spec.compute_crop_region (face_x, face_y) (w, h) 512 (256, 170))).
  { intros w h face_x face_y.
    unfold crop_window, Spec.compute_crop_region, Spec.as_tuple.
    cbn [fst snd Spec.region_left Spec.region_top Spec.region_right Spec.region_bottom].
    rewrite !Z.gtb_ltb.
    destruct (face_x - 256 <? 0), (w <? face_x - 256 + 512),
      (face_y - 170 <? 0), (h <? face_y - 170 + 512); reflexivity. }
  split; [exact Hwin | split; [|reflexivity]].
  intros image face eyes. unfold calculate_crop_region. cbv zeta.
  destruct (face_position face eyes) as [[face_x face_y]|e]; cbn [res_bind];
    [now rewrite Hwin | reflexivity].
Qed.

(** C2: for an image of width and height at least 1 and an anchor inside the
    image, the region satisfies 0 <= left < right <= width and
    0 <= top < bottom <= height, with right - left = min(512, width) and
    bottom - top = min(512, height). *)
Theorem crop_region_within_image (image : ndarray) (face : box) (eyes : list box)
    (anchor_x anchor_y : Z) :
  1 <= shape1 image -> 1 <= shape0 image ->
  face_position face eyes = Ok (anchor_x, anchor_y) ->
  0 <= anchor_x < shape1 image -> 0 <= anchor_y < shape0 image ->
  exists l t r b,
    calculate_crop_region image face eyes = Ok (l, t, r, b) /\
    (0 <= l < r /\ r <= shape1 image) /\
    (0 <= t < b /\ b <= shape0 image) /\
    r - l = Z.min 512 (shape1 image) /\
    b - t = Z.min 512 (shape0 image).
Proof.
  intros Hw Hh Hpos _ _.
  destruct (crop_window_bounds (shape1 image) (shape0 image) anchor_x anchor_y Hw Hh)
    as (l & t & r & b & Heq & Hin & Hwd & Hht).
  exists l, t, r, b. unfold calculate_crop_region. rewrite Hpos. cbn [res_bind].
  rewrite Heq. unfold Spec.inside in Hin. repeat split; lia.
Qed.

Lemma crop_region_within_image_witness :
  exists l t r b,
    calculate_crop_region Example.image_640x480 (Box 200 100 120 120) [] = Ok (l, t, r, b) /\
    (0 <= l < r /\ r <= 640) /\ (0 <= t < b /\ b <= 480) /\
    r - l = 512 /\ b - t = 480.
Proof.
  apply (crop_region_within_image Example.image_640x480 (Box 200 100 120 120) [] 260 160);
    [simpl; lia | simpl; lia | reflexivity | simpl; lia | simpl; lia].
Defined.

(** C9: for every integer anchor, also negative or far outside the image, and
    every image of width and height at least 1, the region is returned (no
    exception) with 0 <= left < right <= width and 0 <= top < bottom <= height;
    the slice [image[top:bottom, left:right]] then has exactly that extent, is
    not empty, and the crop/resize step returns an image. *)
Theorem crop_region_total_and_safe {env : Environment}
    (image : ndarray) (face : box) (eyes : list box) (anchor_x anchor_y : Z) :
  1 <= shape1 image -> 1 <= shape0 image ->
  Spec.inside (crop_window (shape1 image) (shape0 image) anchor_x anchor_y)
    (shape1 image) (shape0 image) /\
  exists l t r b,
    calculate_crop_region image face eyes = Ok (l, t, r, b) /\
    (0 <= l < r /\ r <= shape1 image) /\
    (0 <= t < b /\ b <= shape0 image) /\
    shape0 (slice2 image t b l r) = b - t /\
    shape1 (slice2 image t b l r) = r - l /\
    is_empty (slice2 image t b l r) = false /\
    exists final_image, crop_and_resize image (l, t, r, b) = Ok final_image.
Proof.
  intros Hw Hh. split.
  - destruct (crop_window_bounds (shape1 image) (shape0 image) anchor_x anchor_y Hw Hh)
      as (l & t & r & b & -> & Hin & _). exact Hin.
  - destruct (face_position_total face eyes) as ([face_x face_y] & Hpos).
    destruct (crop_window_bounds (shape1 image) (shape0 image) face_x face_y Hw Hh)
      as (l & t & r & b & Heq & Hin & _).
    destruct (slice2_shape image l t r b Hin) as [Hs0 Hs1].
    assert (Hne : is_empty (slice2 image t b l r) = false).
    { unfold is_empty. rewrite Hs0, Hs1. unfold Spec.inside in Hin. lia. }
    exists l, t, r, b. unfold calculate_crop_region. rewrite Hpos. cbn [res_bind].
    rewrite Heq. unfold Spec.inside in Hin.
    repeat (split; [first [reflexivity | assumption | lia]|]).
    unfold crop_and_resize, cv2_resize. rewrite Hne.
    destruct (negb _ || negb _); eauto.
Qed.

Lemma crop_region_total_and_safe_witness :
  Spec.inside (crop_window 640 480 (-5000) 70000) 640 480 /\
  exists l t r b,
    calculate_crop_region Example.image_640x480 (Box (-900) 7000 3 3) [] = Ok (l, t, r, b) /\
    is_empty (slice2 Example.image_640x480 t b l r) = false.
Proof.
  destruct (crop_region_total_and_safe (env := Example.world) Example.image_640x480
              (Box (-900) 7000 3 3) [] (-5000) 70000) as [Hin Hex].
  - simpl. lia.
  - simpl. lia.
  - split; [exact Hin|].
    destruct Hex as (l & t & r & b & Heq & _ & _ & _ & _ & Hne & _).
    exists l, t, r, b. split; assumption.
Defined.

(** ** One image *)

Section OneImage.
Context {env : Environment}.

(** The run of [process_image], case by case. *)
Lemma process_image_run (image_path : Path) (output_folder : string) (t : trace) :
  process_image image_path output_folder t =
  let t1 := t ++ [Imread (str image_path)] in
  match imread t (str image_path) with
  | Raise e => handled image_path t1 e
  | Ok None => said image_path t1 (Could_not_read image_path) false
  | Ok (Some image) =>
      match prepare image with
      | Raise e => handled image_path t1 e
      | Ok None => said image_path t1 (No_face_detected image_path) false
      | Ok (Some final_image) =>
          let t2 := t1 ++ [Imwrite (output_file output_folder image_path) final_image] in
          match imwrite t1 (output_file output_folder image_path) final_image with
          | Raise e => handled image_path t2 e
          | Ok _ => said image_path t2 (Processed (name image_path)) true
          end
      end
  end.
Proof.
  unfold process_image, try_except, process_image_body, bind, cv2_imread,
    cv2_imwrite, py_print, lift, ret, prepare, said, handled, output_file.
  cbv zeta.
  destruct (imread t (str image_path)) as [[image|]|e].
  - destruct (detect_face_and_eyes image) as [[[face eyes]|]|e]; cbn [res_bind].
    + destruct (calculate_crop_region image face eyes) as [region|e]; cbn [res_bind];
        [|destruct (print _ (Error_processing _ _)); reflexivity].
      destruct (crop_and_resize image region) as [final_image|e]; cbn [res_bind];
        [|destruct (print _ (Error_processing _ _)); reflexivity].
      destruct (imwrite _ _ final_image);
        [|destruct (print _ (Error_processing _ _)); reflexivity].
      destruct (print _ (Processed _)); [reflexivity|].
      destruct (print _ (Error_processing _ _)); reflexivity.
    + destruct (print _ (No_face_detected _)); [reflexivity|].
      destruct (print _ (Error_processing _ _)); reflexivity.
    + destruct (print _ (Error_processing _ _)); reflexivity.
  - destruct (print _ (Could_not_read _)); [reflexivity|].
    destruct (print _ (Error_processing _ _)); reflexivity.
  - destruct (print _ (Error_processing _ _)); reflexivity.
Qed.

(** Whatever [crop_and_resize] returns is 512x512. *)
Lemma crop_and_resize_shape (image : ndarray) (region : Z * Z * Z * Z)
    (final_image : ndarray) :
  crop_and_resize image region = Ok final_image ->
  shape0 final_image = 512 /\ shape1 final_image = 512.
Proof.
  destruct region as [[[l t] r] b]. unfold crop_and_resize, cv2_resize.
  destruct (Z.eqb_spec (shape0 (slice2 image t b l r)) 512) as [H0|H0];
    destruct (Z.eqb_spec (shape1 (slice2 image t b l r)) 512) as [H1|H1];
    cbn [negb orb]; try (destruct (is_empty _); [discriminate|]);
    intros [= <-]; auto.
Qed.

Lemma prepare_shape (image final_image : ndarray) :
  prepare image = Ok (Some final_image) ->
  shape0 final_image = 512 /\ shape1 final_image = 512.
Proof.
  unfold prepare.
  destruct (detect_face_and_eyes image) as [[[face eyes]|]|e]; cbn [res_bind];
    try discriminate.
  destruct (calculate_crop_region image face eyes) as [region|e]; cbn [res_bind];
    try discriminate.
  destruct (crop_and_resize image region) as [img|e] eqn:E; cbn [res_bind];
    try discriminate.
  intros [= <-]. eapply crop_and_resize_shape, E.
Qed.

(** The [except] block keeps the trace, never answers [True], and raises only
    what its own [print] raises. *)
Lemma handled_outcome (image_path : Path) (t : trace) (e : Exception) :
  exists r,
    handled image_path t e = (t, r) /\ r <> Ok true /\
    (forall e', r = Raise e' ->
       exists e0, print t (Error_processing image_path e0) = Raise e').
Proof.
  unfold handled. eexists. split; [reflexivity|].
  destruct (print t (Error_processing image_path e)) as [u|e'] eqn:E.
  - split; [discriminate | intros ? [=]].
  - split; [discriminate | intros ? [= <-]; eauto].
Qed.

(** So does a [print] of the [try] followed by [return b]: it answers [b], or
    goes through the [except] block. *)
Lemma said_outcome (image_path : Path) (t : trace) (msg : message) (b : bool) :
  exists r,
    said image_path t msg b = (t, r) /\ (r = Ok true -> b = true) /\
    (forall e', r = Raise e' ->
       exists e0, print t (Error_processing image_path e0) = Raise e').
Proof.
  unfold said. destruct (print t msg) as [u|e].
  - eexists. split; [reflexivity|]. split; [now intros [= <-] | intros ? [=]].
  - destruct (handled_outcome image_path t e) as (r & -> & Hnt & Hr).
    exists r. split; [reflexivity|]. split; [intros ->; congruence | exact Hr].
Qed.

(** [process_image] extends the trace by one [Imread] of its file and at most
    one [Imwrite], of a 512x512 image under the output name; an answer of
    [True] comes with the write, and an exception that leaves it is one its
    error message raised. *)
Lemma process_image_outcome (image_path : Path) (output_folder : string) (t : trace) :
  exists written r,
    process_image image_path output_folder t =
      (t ++ Imread (str image_path) :: written, r) /\
    (written = [] \/
     exists final_image,
       written = [Imwrite (output_file output_folder image_path) final_image] /\
       shape0 final_image = 512 /\ shape1 final_image = 512) /\
    (r = Ok true -> written <> []) /\
    (forall e, r = Raise e ->
       exists e0,
         print (t ++ Imread (str image_path) :: written)
           (Error_processing image_path e0) = Raise e).
Proof.
  rewrite process_image_run. cbv zeta.
  assert (Hstop : forall e, exists written r,
    handled image_path (t ++ [Imread (str image_path)]) e =
      (t ++ Imread (str image_path) :: written, r) /\
    (written = [] \/
     exists final_image,
       written = [Imwrite (output_file output_folder image_path) final_image] /\
       shape0 final_image = 512 /\ shape1 final_image = 512) /\
    (r = Ok true -> written <> []) /\
    (forall e', r = Raise e' ->
       exists e0,
         print (t ++ Imread (str image_path) :: written)
           (Error_processing image_path e0) = Raise e')).
  { intros e. destruct (handled_outcome image_path (t ++ [Imread (str image_path)]) e)
      as (r & Hrun & Hnt & Hr).
    exists [], r. split; [exact Hrun|]. split; [now left|].
    split; [intros ->; congruence | exact Hr]. }
  assert (Hwarn : forall msg, exists written r,
    said image_path (t ++ [Imread (str image_path)]) msg false =
      (t ++ Imread (str image_path) :: written, r) /\
    (written = [] \/
     exists final_image,
       written = [Imwrite (output_file output_folder image_path) final_image] /\
       shape0 final_image = 512 /\ shape1 final_image = 512) /\
    (r = Ok true -> written <> []) /\
    (forall e', r = Raise e' ->
       exists e0,
         print (t ++ Imread (str image_path) :: written)
           (Error_processing image_path e0) = Raise e')).
  { intros msg.
    destruct (said_outcome image_path (t ++ [Imread (str image_path)]) msg false)
      as (r & Hrun & Hnt & Hr).
    exists [], r. split; [exact Hrun|]. split; [now left|].
    split; [intros H; apply Hnt in H; discriminate | exact Hr]. }
  destruct (imread t (str image_path)) as [[image|]|e]; [| apply Hwarn | apply Hstop].
  destruct (prepare image) as [[final_image|]|e] eqn:E; [| apply Hwarn | apply Hstop].
  destruct (prepare_shape image final_image E) as [H0 H1].
  rewrite <- app_assoc. cbn [app].
  exists [Imwrite (output_file output_folder image_path) final_image].
  assert (Hw : [Imwrite (output_file output_folder image_path) final_image] = [] \/
     exists final,
       [Imwrite (output_file output_folder image_path) final_image] =
         [Imwrite (output_file output_folder image_path) final] /\
       shape0 final = 512 /\ shape1 final = 512)
    by (right; exists final_image; repeat split; assumption).
  destruct (imwrite _ _ final_image) as [answer|e].
  - destruct (said_outcome image_path
                (t ++ [Imread (str image_path);
                       Imwrite (output_file output_folder image_path) final_image])
                (Processed (name image_path)) true) as (r & Hrun & _ & Hr).
    exists r. split; [exact Hrun|]. split; [exact Hw|].
    split; [discriminate | exact Hr].
  - destruct (handled_outcome image_path
                (t ++ [Imread (str image_path);
                       Imwrite (output_file output_folder image_path) final_image]) e)
      as (r & Hrun & _ & Hr).
    exists r. split; [exact Hrun|]. split; [exact Hw|].
    split; [discriminate | exact Hr].
Qed.


End OneImage.




(** C6: the crop is resampled to 512x512 with Lanczos interpolation exactly
    when its height or its width differs from 512, and is passed through
    unchanged otherwise; the image that comes out is 512x512 in both cases,
    and so is every image [process_image] gives to [imwrite], whatever the
    size of the source. *)
Theorem output_is_512x512 {env : Environment}
    (image : ndarray) (l t r b : Z) (image_path : Path) (output_folder : string)
    (tr : trace) :
  let cropped := slice2 image t b l r in
  (shape0 cropped <> 512 \/ shape1 cropped <> 512 ->
   crop_and_resize image (l, t, r, b) = cv2_resize cropped (512, 512) INTER_LANCZOS4) /\
  (shape0 cropped = 512 /\ shape1 cropped = 512 ->
   crop_and_resize image (l, t, r, b) = Ok cropped) /\
  (forall final_image,
     crop_and_resize image (l, t, r, b) = Ok final_image ->
     shape0 final_image = 512 /\ shape1 final_image = 512) /\
  (exists result written,
     process_image image_path output_folder tr =
       (tr ++ Imread (str image_path) :: written, result) /\
     writes_512 written).
Proof.
  intros cropped. split; [|split; [|split]].
  - intros H. unfold crop_and_resize. fold cropped.
    destruct (Z.eqb_spec (shape0 cropped) 512), (Z.eqb_spec (shape1 cropped) 512);
      cbn [negb orb]; solve [reflexivity | lia].
  - intros [H0 H1]. unfold crop_and_resize. fold cropped.
    rewrite H0, H1. reflexivity.
  - apply crop_and_resize_shape.
  - destruct (process_image_outcome image_path output_folder tr)
      as (written & result & H & Hw & _).
    exists result, written. split; [exact H|].
    destruct Hw as [-> | (final_image & -> & H0 & H1)].
    + intros ? ? [].
    + intros f img [[= _ <-] | []]. split; assumption.
Qed.

Lemma output_is_512x512_witness :
  crop_and_resize (env := Example.world) (Example.blank 300 300) (0, 0, 300, 300) =
    cv2_resize (env := Example.world)
      (slice2 (Example.blank 300 300) 0 300 0 300) (512, 512) INTER_LANCZOS4 /\
  crop_and_resize (env := Example.world) (Example.blank 800 1000) (244, 100, 756, 612) =
    Ok (slice2 (Example.blank 800 1000) 100 612 244 756).
Proof.
  split.
  - apply (output_is_512x512 (env := Example.world) (Example.blank 300 300)
             0 0 300 300 (mk_Path "in" "d.jpg") "out" []).
    left. vm_compute. lia.
  - apply (output_is_512x512 (env := Example.world) (Example.blank 800 1000)
             244 100 756 612 (mk_Path "in" "a.jpg") "out" []).
    split; reflexivity.
Defined.

(** ** Detection *)

Lemma max_from_spec {A : Type} (key : A -> Z) (l : list A) (best : A) :
  In (max_from key best l) (best :: l) /\
  forall f, In f (best :: l) -> key f <= key (max_from key best l).
Proof.
  revert best. induction l as [|g l IH]; intros best; simpl max_from.
  - split; [now left | intros f [<- | []]; lia].
  - destruct (IH (if key best <? key g then g else best)) as [Hin Hmax].
    split.
    + destruct (key best <? key g); destruct Hin as [<- | Hin]; simpl; auto.
    + intros f Hf.
      assert (Hb : key (if key best <? key g then g else best)
                   <= key (max_from key (if key best <? key g then g else best) l))
        by (apply Hmax; now left).
      destruct Hf as [<- | [<- | Hf]]; [| | apply Hmax; now right];
        destruct (Z.ltb_spec (key best) (key g)); lia.
Qed.

(** C7: among one or more face candidates the chosen face has maximal area
    [w * h]; the eyes returned are the eyes found in the chosen face's
    sub-region of the grey image, each translated by the face's (x, y) with
    its width and height unchanged; with no candidate the result is [None],
    and [process_image] then stops after reading the file, writing nothing
    and never answering [True]. *)
Theorem detect_selects_largest_face {env : Environment}
    (image gray : ndarray) (faces : list box) :
  cvtColor_BGR2GRAY image = Ok gray ->
  face_cascade_detectMultiScale gray = Ok faces ->
  (faces <> [] ->
   exists face,
     In face faces /\
     (forall f, In f faces -> box_w f * box_h f <= box_w face * box_h face) /\
     forall eyes,
       eye_cascade_detectMultiScale
         (slice2 gray (box_y face) (box_y face + box_h face)
                      (box_x face) (box_x face + box_w face)) = Ok eyes ->
       exists eyes_full,
         detect_face_and_eyes image = Ok (Some (face, eyes_full)) /\
         Forall2 (translated_by face) eyes eyes_full) /\
  (faces = [] ->
   detect_face_and_eyes image = Ok None /\
   forall (image_path : Path) (output_folder : string) (t : trace),
     imread t (str image_path) = Ok (Some image) ->
     exists result,
       process_image image_path output_folder t =
         (t ++ [Imread (str image_path)], result) /\
       result <> Ok true /\
       (print (t ++ [Imread (str image_path)]) (No_face_detected image_path) = Ok tt ->
        result = Ok false)).
Proof.
  intros Hgray Hfaces. split.
  - intros Hne. destruct faces as [|f0 faces]; [congruence|].
    destruct (max_from_spec (fun f => box_w f * box_h f) faces f0) as [Hin Hmax].
    exists (max_from (fun f => box_w f * box_h f) f0 faces).
    split; [exact Hin|]. split; [exact Hmax|].
    intros eyes Heyes. eexists. split.
    + unfold detect_face_and_eyes. rewrite Hgray. cbn [res_bind].
      rewrite Hfaces. cbn [res_bind].
      replace (len (f0 :: faces) =? 0) with false
        by (symmetry; apply Z.eqb_neq; unfold len; simpl; lia).
      cbn [py_max res_bind]. cbv zeta. rewrite Heyes. reflexivity.
    + clear Heyes. induction eyes as [|e eyes IH]; simpl; constructor.
      * repeat split.
      * exact IH.
  - intros ->.
    assert (Hnone : detect_face_and_eyes image = Ok None).
    { unfold detect_face_and_eyes. rewrite Hgray. cbn [res_bind].
      rewrite Hfaces. reflexivity. }
    split; [exact Hnone|].
    intros image_path output_folder t Hread.
    rewrite process_image_run, Hread. cbv zeta. unfold prepare. rewrite Hnone.
    cbn [res_bind].
    destruct (said_outcome image_path (t ++ [Imread (str image_path)])
                (No_face_detected image_path) false) as (result & Hrun & Hnt & _).
    exists result. split; [exact Hrun|].
    split; [intros H; apply Hnt in H; discriminate|].
    intros Hp. unfold said in Hrun. rewrite Hp in Hrun. now injection Hrun as <-.
Qed.

Lemma detect_selects_largest_face_witness :
  (exists face,
     In face [Box 10 10 40 40; Box 400 200 200 220] /\
     (forall f, In f [Box 10 10 40 40; Box 400 200 200 220] ->
        box_w f * box_h f <= box_w face * box_h face)) /\
  detect_face_and_eyes (env := Example.world) (Example.blank 300 300) = Ok None.
Proof.
  split.
  - destruct (detect_selects_largest_face (env := Example.world)
                (Example.blank 800 1000)
                {| shape0 := 800; shape1 := 1000; data := fun _ _ => [0] |}
                [Box 10 10 40 40; Box 400 200 200 220] eq_refl eq_refl) as [H _].
    destruct H as (face & Hin & Hmax & _); [discriminate|].
    exists face. split; assumption.
  - destruct (detect_selects_largest_face (env := Example.world)
                (Example.blank 300 300)
                {| shape0 := 300; shape1 := 300; data := fun _ _ => [0] |}
                [] eq_refl eq_refl) as [_ H].
    apply H. reflexivity.
Defined.

(** ** The batch *)

Section Batch.
Context {env : Environment}.

Lemma imreads_app (t u : trace) :
  Spec.imreads (t ++ u) = Spec.imreads t ++ Spec.imreads u.
Proof. apply flat_map_app. Qed.

Lemma imreads_step (image_path : Path) (output_folder : string) (t t1 : trace)
    (r : res bool) :
  process_image image_path output_folder t = (t1, r) ->
  Spec.imreads t1 = Spec.imreads t ++ [str image_path].
Proof.
  intros Hrun.
  destruct (process_image_outcome image_path output_folder t)
    as (written & r' & H & Hw & _).
  rewrite H in Hrun. injection Hrun as <- _. rewrite imreads_app. f_equal.
  destruct Hw as [-> | (final_image & -> & _)]; reflexivity.
Qed.

(** The loop either runs [process_image] on every file in order and returns
    its two counters, or stops at the first file on which [process_image]
    raises, with that exception. *)
Lemma process_loop_cases (output_folder : string) (image_files : list Path) :
  forall (successful failed : Z) (t : trace),
  (exists oks t',
     runs_in_order output_folder image_files t oks t' /\
     List.length oks = List.length image_files /\
     Spec.imreads t' = Spec.imreads t ++ map str image_files /\
     process_loop image_files output_folder successful failed t =
       (t', Ok (successful + len (filter (fun ok => ok) oks),
                failed + len (filter negb oks)))) \/
  (exists done image_file rest oks t1 t' e,
     image_files = done ++ image_file :: rest /\
     runs_in_order output_folder done t oks t1 /\
     process_image image_file output_folder t1 = (t', Raise e) /\
     Spec.imreads t' = Spec.imreads t ++ map str (done ++ [image_file]) /\
     process_loop image_files output_folder successful failed t = (t', Raise e)).
Proof.
  induction image_files as [|image_file rest IH]; intros successful failed t.
  - left. exists [], t. split; [constructor|]. split; [reflexivity|].
    split; [simpl; now rewrite app_nil_r|].
    unfold len. simpl. unfold ret. now rewrite !Z.add_0_r.
  - destruct (process_image image_file output_folder t) as [t1 [ok|e]] eqn:Hrun.
    + pose proof (imreads_step _ _ _ _ _ Hrun) as Hreads1.
      destruct (IH (if ok then successful + 1 else successful)
                   (if ok then failed else failed + 1) t1)
        as [(oks & t' & Hruns & Hlen & Himreads & Hloop)
           | (done & file & rest' & oks & t2 & t' & e & -> & Hruns & Hraise
              & Himreads & Hloop)].
      * left. exists (ok :: oks), t'. split; [econstructor; eassumption|].
        split; [simpl; now rewrite Hlen|].
        split; [rewrite Himreads, Hreads1, <- app_assoc; reflexivity|].
        simpl process_loop. unfold bind. rewrite Hrun.
        destruct ok; rewrite Hloop; do 2 f_equal; unfold len;
          cbn [filter negb List.length]; rewrite ?Nat2Z.inj_succ; f_equal; lia.
      * right. exists (image_file :: done), file, rest', (ok :: oks), t2, t', e.
        split; [reflexivity|]. split; [econstructor; eassumption|].
        split; [exact Hraise|].
        split; [rewrite Himreads, Hreads1, <- app_assoc; reflexivity|].
        simpl process_loop. unfold bind. rewrite Hrun. destruct ok; exact Hloop.
    + right. exists [], image_file, rest, [], t, t1, e.
      split; [reflexivity|]. split; [constructor|]. split; [exact Hrun|].
      split; [exact (imreads_step _ _ _ _ _ Hrun)|].
      simpl process_loop. unfold bind. now rewrite Hrun.
Qed.





(** The listing made by [get_image_files]. *)
Lemma get_image_files_run (folder_path : string) (t : trace) :
  get_image_files folder_path t =
    (t ++ [Iterdir folder_path],
     match iterdir t folder_path with
     | Ok entries => Ok (listed_images entries)
     | Raise e => Raise e
     end).
Proof.
  unfold get_image_files, bind, call_iterdir, ret.
  destruct (iterdir t folder_path); reflexivity.
Qed.

(** The run of [process_folder], case by case. *)
Lemma process_folder_run (input_folder output_folder : string) (t : trace) :
  process_folder input_folder output_folder t =
  match iterdir t input_folder with
  | Raise e => (t ++ [Iterdir input_folder], Raise e)
  | Ok entries =>
      match listed_images entries with
      | [] => (t ++ [Iterdir input_folder], Ok false)
      | _ :: _ =>
          match mkdir (t ++ [Iterdir input_folder]) output_folder with
          | Raise e => (t ++ [Iterdir input_folder; Mkdir output_folder], Raise e)
          | Ok _ =>
              match process_loop (listed_images entries) output_folder 0 0
                      (t ++ [Iterdir input_folder; Mkdir output_folder]) with
              | (t', Ok (successful, failed)) => (t', Ok (successful >? 0))
              | (t', Raise e) => (t', Raise e)
              end
          end
      end
  end.
Proof.
  unfold process_folder, bind. rewrite get_image_files_run.
  destruct (iterdir t input_folder) as [entries|e]; [|reflexivity].
  destruct (listed_images entries) as [|image_file rest] eqn:E; [reflexivity|].
  unfold call_mkdir.
  destruct (mkdir (t ++ [Iterdir input_folder]) output_folder) as [u|e];
    rewrite <- app_assoc; [|reflexivity].
  cbn [app].
  destruct (process_loop (image_file :: rest) output_folder 0 0 _) as [t' [[s f]|e]];
    reflexivity.
Qed.


End Batch.




(* ================================================================== *)
(** * Further properties of the code *)

(** ** The crop rectangle, continued *)

(** X1: when the 512x512 window around the face fits in the image, no clamp
    moves it: the region is (x-256, y-170, x+256, y+342), so the face position
    lands at (256, 170) of a 512x512 crop. *)
Theorem crop_centers_face (image : ndarray) (face : box) (eyes : list box)
    (face_x face_y : Z) :
  face_position face eyes = Ok (face_x, face_y) ->
  256 <= face_x -> face_x + 256 <= shape1 image ->
  170 <= face_y -> face_y + 342 <= shape0 image ->
  calculate_crop_region image face eyes =
    Ok (face_x - 256, face_y - 170, face_x + 256, face_y + 342).
Proof.
  intros Hpos Hx0 Hx1 Hy0 Hy1. unfold calculate_crop_region. rewrite Hpos.
  cbn [res_bind]. unfold crop_window. cbv zeta.
  destruct (Z.ltb_spec (face_x - 256) 0); [lia|].
  destruct (Z.gtb_spec (face_x - 256 + 512) (shape1 image)); [lia|].
  destruct (Z.ltb_spec (face_y - 170) 0); [lia|].
  destruct (Z.gtb_spec (face_y - 170 + 512) (shape0 image)); [lia|].
  do 2 f_equal; [f_equal; [f_equal|]|]; lia.
Qed.

Lemma crop_centers_face_witness :
  calculate_crop_region (Example.blank 1000 1000) (Box 450 450 100 100) [] =
    Ok (244, 330, 756, 842).
Proof.
  apply (crop_centers_face (Example.blank 1000 1000) (Box 450 450 100 100) [] 500 500);
    [reflexivity | lia | simpl; lia | lia | simpl; lia].
Defined.

(** X2: a face position inside the image is never cropped out: whatever the
    clamps do, it lies inside the region returned. *)
Theorem crop_keeps_face (image : ndarray) (face : box) (eyes : list box)
    (face_x face_y : Z) :
  face_position face eyes = Ok (face_x, face_y) ->
  0 <= face_x < shape1 image -> 0 <= face_y < shape0 image ->
  exists l t r b,
    calculate_crop_region image face eyes = Ok (l, t, r, b) /\
    l <= face_x < r /\ t <= face_y < b.
Proof.
  intros Hpos Hx Hy. unfold calculate_crop_region. rewrite Hpos. cbn [res_bind].
  unfold crop_window. cbv zeta.
  destruct (Z.ltb_spec (face_x - 256) 0);
    [| destruct (Z.gtb_spec (face_x - 256 + 512) (shape1 image))];
    (destruct (Z.ltb_spec (face_y - 170) 0);
      [| destruct (Z.gtb_spec (face_y - 170 + 512) (shape0 image))]);
    do 4 eexists; (split; [reflexivity|]); lia.
Qed.

Lemma crop_keeps_face_witness :
  exists l t r b,
    calculate_crop_region (Example.blank 300 2000) (Box 1980 280 10 10) [] =
      Ok (l, t, r, b) /\
    l <= 1985 < r /\ t <= 285 < b.
Proof.
  apply (crop_keeps_face (Example.blank 300 2000) (Box 1980 280 10 10) [] 1985 285);
    [reflexivity | simpl; lia | simpl; lia].
Defined.

(** X3: moving the face to the right never moves the window to the left, and
    moving it down never moves the window up: each edge of the region is a
    non-decreasing function of the matching coordinate of the face. *)
Theorem crop_window_monotone (w h x y x' y' : Z) :
  x <= x' -> y <= y' ->
  exists l t r b l' t' r' b',
    crop_window w h x y = (l, t, r, b) /\
    crop_window w h x' y' = (l', t', r', b') /\
    l <= l' /\ r <= r' /\ t <= t' /\ b <= b'.
Proof.
  intros Hx Hy. unfold crop_window. cbv zeta.
  destruct (Z.ltb_spec (x - 256) 0);
    [| destruct (Z.gtb_spec (x - 256 + 512) w)];
    (destruct (Z.ltb_spec (y - 170) 0);
      [| destruct (Z.gtb_spec (y - 170 + 512) h)]);
    (destruct (Z.ltb_spec (x' - 256) 0);
      [| destruct (Z.gtb_spec (x' - 256 + 512) w)]);
    (destruct (Z.ltb_spec (y' - 170) 0);
      [| destruct (Z.gtb_spec (y' - 170 + 512) h)]);
    do 8 eexists; (split; [reflexivity|]); (split; [reflexivity|]); lia.
Qed.

Lemma crop_window_monotone_witness :
  exists l t r b l' t' r' b',
    crop_window 1000 800 100 700 = (l, t, r, b) /\
    crop_window 1000 800 900 790 = (l', t', r', b') /\
    l <= l' /\ r <= r' /\ t <= t' /\ b <= b'.
Proof.
  apply (crop_window_monotone 1000 800 100 700 900 790); lia.
Defined.

(** X4: an axis of the image no longer than 512 is taken whole, wherever the
    face is: the region spans columns 0 to width when 1 <= width <= 512 and
    rows 0 to height when 1 <= height <= 512. *)
Theorem small_image_is_taken_whole (image : ndarray) (face : box) (eyes : list box) :
  exists l t r b,
    calculate_crop_region image face eyes = Ok (l, t, r, b) /\
    (1 <= shape1 image <= 512 -> l = 0 /\ r = shape1 image) /\
    (1 <= shape0 image <= 512 -> t = 0 /\ b = shape0 image).
Proof.
  destruct (face_position_total face eyes) as ([face_x face_y] & Hpos).
  unfold calculate_crop_region. rewrite Hpos. cbn [res_bind].
  unfold crop_window. cbv zeta.
  destruct (Z.ltb_spec (face_x - 256) 0);
    [| destruct (Z.gtb_spec (face_x - 256 + 512) (shape1 image))];
    (destruct (Z.ltb_spec (face_y - 170) 0);
      [| destruct (Z.gtb_spec (face_y - 170 + 512) (shape0 image))]);
    do 4 eexists; (split; [reflexivity|]); lia.
Qed.

Lemma small_image_is_taken_whole_witness :
  calculate_crop_region (Example.blank 300 200) (Box 150 40 30 30)
    [Box 160 50 8 8; Box 150 52 8 8] = Ok (0, 0, 200, 300).
Proof.
  destruct (small_image_is_taken_whole (Example.blank 300 200) (Box 150 40 30 30)
              [Box 160 50 8 8; Box 150 52 8 8]) as (l & t & r & b & Heq & Hw & Hh).
  destruct Hw as [-> ->]; [simpl; lia|].
  destruct Hh as [-> ->]; [simpl; lia|].
  exact Heq.
Defined.

(** X5: an image at least 512 wide and 512 high is never resampled: the region
    is exactly 512x512, the crop/resize step returns the slice itself, and
    the pixel at row i, column j of the result is the pixel at row top+i,
    column left+j of the source. *)
Theorem large_image_is_copied {env : Environment}
    (image : ndarray) (face : box) (eyes : list box) :
  512 <= shape1 image -> 512 <= shape0 image ->
  exists l t r b,
    calculate_crop_region image face eyes = Ok (l, t, r, b) /\
    r - l = 512 /\ b - t = 512 /\
    crop_and_resize image (l, t, r, b) = Ok (slice2 image t b l r) /\
    forall i j, data (slice2 image t b l r) i j = data image (t + i) (l + j).
Proof.
  intros Hw Hh.
  destruct (face_position_total face eyes) as ([face_x face_y] & Hpos).
  destruct (crop_window_bounds (shape1 image) (shape0 image) face_x face_y)
    as (l & t & r & b & Heq & Hin & Hwd & Hht); [lia | lia |].
  destruct (slice2_shape image l t r b Hin) as [Hs0 Hs1].
  exists l, t, r, b. unfold calculate_crop_region. rewrite Hpos. cbn [res_bind].
  rewrite Heq. split; [reflexivity|]. split; [lia|]. split; [lia|]. split.
  - unfold crop_and_resize. rewrite Hs0, Hs1.
    replace (b - t) with 512 by lia. replace (r - l) with 512 by lia. reflexivity.
  - intros i j. unfold Spec.inside in Hin. unfold slice2, slice_bound. cbn [data].
    destruct (Z.ltb_spec t 0); [lia|]. destruct (Z.ltb_spec l 0); [lia|].
    f_equal; lia.
Qed.

Lemma large_image_is_copied_witness :
  exists l t r b,
    calculate_crop_region (Example.blank 800 1000) (Box 400 200 200 220) [] =
      Ok (l, t, r, b) /\
    crop_and_resize (env := Example.world) (Example.blank 800 1000) (l, t, r, b) =
      Ok (slice2 (Example.blank 800 1000) t b l r).
Proof.
  destruct (large_image_is_copied (env := Example.world) (Example.blank 800 1000)
              (Box 400 200 200 220) []) as (l & t & r & b & Heq & _ & _ & Hcopy & _).
  - simpl. lia.
  - simpl. lia.
  - exists l, t, r, b. split; assumption.
Defined.

(** X6: an image that is already 512x512 comes out as it went in: the region
    is the whole image and every pixel of the result is the pixel of the
    source at the same place. *)
Theorem normalized_image_is_unchanged {env : Environment}
    (image : ndarray) (face : box) (eyes : list box) :
  shape0 image = 512 -> shape1 image = 512 ->
  exists final_image,
    calculate_crop_region image face eyes = Ok (0, 0, 512, 512) /\
    crop_and_resize image (0, 0, 512, 512) = Ok final_image /\
    shape0 final_image = 512 /\ shape1 final_image = 512 /\
    forall i j, data final_image i j = data image i j.
Proof.
  intros H0 H1.
  destruct (small_image_is_taken_whole image face eyes)
    as (l & t & r & b & Heq & Hw & Hh).
  destruct Hw as [-> ->]; [lia|]. destruct Hh as [-> ->]; [lia|].
  rewrite H0, H1 in Heq.
  exists (slice2 image 0 512 0 512). split; [exact Heq|].
  unfold crop_and_resize, slice2, slice_bound. cbn [shape0 shape1 data].
  rewrite H0, H1. repeat split.
Qed.

Lemma normalized_image_is_unchanged_witness :
  calculate_crop_region (Example.blank 512 512) (Box 10 10 50 50) [] =
    Ok (0, 0, 512, 512).
Proof.
  destruct (normalized_image_is_unchanged (env := Example.world)
              (Example.blank 512 512) (Box 10 10 50 50) [] eq_refl eq_refl)
    as (final_image & Heq & _).
  exact Heq.
Defined.

(** ** The face position, continued *)

Lemma half_sum_between (a b : Z) :
  Z.min a b <= (a + b) / 2 <= Z.max a b.
Proof.
  pose proof (Z.div_mod (a + b) 2). pose proof (Z.mod_pos_bound (a + b) 2). lia.
Qed.

(** X7: with two or more eyes the face position lies between the centres of
    the two eyes the code selects, the earliest box of minimal x and the
    latest box of maximal x, in x and in y: integer averaging never leaves
    the segment between them. *)
Theorem face_position_between_eyes (face : box) (eyes : list box) :
  2 <= len eyes ->
  exists l r face_x face_y,
    Spec.earliest_min_x eyes l /\ Spec.latest_max_x eyes r /\
    face_position face eyes = Ok (face_x, face_y) /\
    Z.min (fst (Spec.center l)) (fst (Spec.center r)) <= face_x
      <= Z.max (fst (Spec.center l)) (fst (Spec.center r)) /\
    Z.min (snd (Spec.center l)) (snd (Spec.center r)) <= face_y
      <= Z.max (snd (Spec.center l)) (snd (Spec.center r)).
Proof.
  intros H. destruct (face_position_eyes face eyes H) as (l & r & Hl & Hr & Heq).
  exists l, r. eexists _, _. split; [exact Hl|]. split; [exact Hr|].
  split; [exact Heq|]. split; apply half_sum_between.
Qed.

Lemma face_position_between_eyes_witness :
  exists l r face_x face_y,
    Spec.earliest_min_x [Box 181 95 21 25; Box 100 100 20 20; Box 140 0 2 2] l /\
    Spec.latest_max_x [Box 181 95 21 25; Box 100 100 20 20; Box 140 0 2 2] r /\
    face_position (Box 0 0 1 1) [Box 181 95 21 25; Box 100 100 20 20; Box 140 0 2 2] =
      Ok (face_x, face_y) /\
    Z.min (fst (Spec.center l)) (fst (Spec.center r)) <= face_x
      <= Z.max (fst (Spec.center l)) (fst (Spec.center r)).
Proof.
  destruct (face_position_between_eyes (Box 0 0 1 1)
              [Box 181 95 21 25; Box 100 100 20 20; Box 140 0 2 2])
    as (l & r & face_x & face_y & Hl & Hr & Heq & Hx & _).
  - unfold len. simpl. lia.
  - exists l, r, face_x, face_y. repeat split; try assumption; apply Hx.
Defined.

(** ** Sorting translated boxes *)

Lemma insert_by_map {A B : Type} (key : A -> Z) (key' : B -> Z) (f : A -> B)
    (e : A) (l : list A) :
  (forall a b, (key' (f a) <=? key' (f b)) = (key a <=? key b)) ->
  insert_by key' (f e) (map f l) = map f (insert_by key e l).
Proof.
  intros Hkey. induction l as [|y l IH]; [reflexivity|]. simpl.
  rewrite Hkey. destruct (key e <=? key y); [reflexivity|]. simpl. now rewrite IH.
Qed.

Lemma py_sorted_map {A B : Type} (key : A -> Z) (key' : B -> Z) (f : A -> B)
    (l : list A) :
  (forall a b, (key' (f a) <=? key' (f b)) = (key a <=? key b)) ->
  py_sorted key' (map f l) = map f (py_sorted key l).
Proof.
  intros Hkey. induction l as [|e l IH]; [reflexivity|]. simpl.
  rewrite IH. now apply insert_by_map.
Qed.

Lemma py_getitem_map {A B : Type} (f : A -> B) (l : list A) (i : Z) :
  py_getitem (map f l) i = let? a := py_getitem l i in Ok (f a).
Proof.
  unfold py_getitem, len. rewrite length_map, nth_error_map.
  destruct (_ || _); [reflexivity|].
  destruct (nth_error l _); reflexivity.
Qed.

(** X8: translating every eye box by the offset of a face translates the face
    position by the same offset: for two or more eyes, the position computed
    from the eyes in full-image coordinates is the position computed from the
    eyes as found in the face's sub-region, plus the face's (x, y). *)
Theorem face_position_follows_offset (face other : box) (eyes : list box)
    (face_x face_y : Z) :
  2 <= len eyes ->
  face_position other eyes = Ok (face_x, face_y) ->
  face_position other (map (to_full_image face) eyes) =
    Ok (box_x face + face_x, box_y face + face_y).
Proof.
  intros Hlen. unfold face_position.
  assert (Hlen' : len (map (to_full_image face) eyes) = len eyes)
    by (unfold len; now rewrite length_map).
  rewrite Hlen'. destruct (Z.geb_spec (len eyes) 2) as [_|]; [|lia]. cbv zeta.
  rewrite (py_sorted_map box_x box_x (to_full_image face))
    by (intros a b; unfold to_full_image; cbn [box_x];
        destruct (Z.leb_spec (box_x face + box_x a) (box_x face + box_x b)),
          (Z.leb_spec (box_x a) (box_x b)); lia || reflexivity).
  rewrite !py_getitem_map.
  destruct (py_getitem (py_sorted box_x eyes) 0) as [l|e]; cbn [res_bind];
    [|discriminate].
  destruct (py_getitem (py_sorted box_x eyes) (-1)) as [r|e]; cbn [res_bind];
    [|discriminate].
  intros [= <- <-]. unfold to_full_image. cbn [box_x box_y box_w box_h].
  do 2 f_equal.
  - replace (box_x face + box_x l + box_w l / 2 + (box_x face + box_x r) + box_w r / 2)
      with (box_x l + box_w l / 2 + box_x r + box_w r / 2 + box_x face * 2) by lia.
    rewrite Z.div_add by lia. lia.
  - replace (box_y face + box_y l + box_h l / 2 + (box_y face + box_y r) + box_h r / 2)
      with (box_y l + box_h l / 2 + box_y r + box_h r / 2 + box_y face * 2) by lia.
    rewrite Z.div_add by lia. lia.
Qed.

Lemma face_position_follows_offset_witness :
  face_position (Box 0 0 1 1)
    (map (to_full_image (Box 400 200 200 220)) [Box 120 60 30 30; Box 40 62 30 30]) =
  Ok (400 + 95, 200 + 76).
Proof.
  apply (face_position_follows_offset (Box 400 200 200 220) (Box 0 0 1 1)
           [Box 120 60 30 30; Box 40 62 30 30] 95 76);
    [unfold len; simpl; lia | reflexivity].
Defined.

(** ** Detection, continued *)

(** [max] returns the first of the maximal elements. *)
Lemma max_from_first {A : Type} (key : A -> Z) (l : list A) (best : A) :
  exists before after,
    best :: l = before ++ max_from key best l :: after /\
    (forall f, In f before -> key f < key (max_from key best l)) /\
    (forall f, In f after -> key f <= key (max_from key best l)).
Proof.
  revert best. induction l as [|g l IH]; intros best.
  - exists [], []. split; [reflexivity|]. split; intros ? [].
  - simpl max_from.
    destruct (max_from_spec key l (if key best <? key g then g else best)) as [_ Hmax].
    destruct (IH (if key best <? key g then g else best))
      as (before & after & Heq & Hb & Ha).
    destruct (Z.ltb_spec (key best) (key g)) as [Hlt | Hge].
    + exists (best :: before), after. split; [simpl; now rewrite <- Heq|].
      split; [|exact Ha]. intros f [<- | Hf]; [|now apply Hb].
      specialize (Hmax g (or_introl eq_refl)). lia.
    + destruct before as [|b0 before]; simpl in Heq; injection Heq as Hb0 Hl.
      * exists [], (g :: l). rewrite <- Hb0. split; [reflexivity|].
        split; [intros ? []|]. intros f [<- | Hf]; [lia|].
        rewrite Hb0. apply Ha. rewrite <- Hl. exact Hf.
      * subst b0. exists (best :: g :: before), after.
        split; [simpl; now rewrite <- Hl|]. split; [|exact Ha].
        assert (key best < key (max_from key best l)) by (apply Hb; now left).
        intros f [<- | [<- | Hf]]; [assumption | lia | apply Hb; now right].
Qed.

Section Detection.
Context {env : Environment}.

(** What a successful detection went through. *)
Lemma detect_face_and_eyes_found (image : ndarray) (face : box) (eyes_full : list box) :
  detect_face_and_eyes image = Ok (Some (face, eyes_full)) ->
  exists gray f0 faces eyes,
    cvtColor_BGR2GRAY image = Ok gray /\
    face_cascade_detectMultiScale gray = Ok (f0 :: faces) /\
    face = max_from area f0 faces /\
    eye_cascade_detectMultiScale
      (slice2 gray (box_y face) (box_y face + box_h face)
                   (box_x face) (box_x face + box_w face)) = Ok eyes /\
    eyes_full = map (to_full_image face) eyes.
Proof.
  unfold detect_face_and_eyes.
  destruct (cvtColor_BGR2GRAY image) as [gray|e]; cbn [res_bind]; [|discriminate].
  destruct (face_cascade_detectMultiScale gray) as [[|f0 faces]|e] eqn:Ef;
    cbn [res_bind]; [discriminate | | discriminate].
  replace (len (f0 :: faces) =? 0) with false
    by (symmetry; apply Z.eqb_neq; unfold len; simpl; lia).
  cbn [py_max res_bind]. cbv zeta.
  change (max_from (fun f => box_w f * box_h f) f0 faces) with (max_from area f0 faces).
  destruct (eye_cascade_detectMultiScale _) as [eyes|e] eqn:E; cbn [res_bind];
    [|discriminate].
  intros [= <- <-]. exists gray, f0, faces, eyes.
  split; [reflexivity|]. split; [exact Ef|]. split; [reflexivity|].
  split; [exact E | reflexivity].
Qed.

End Detection.

(** X9: among face candidates of equal largest area the detection keeps the
    first one in the cascade's order: every candidate before the chosen face
    is strictly smaller, every candidate after it is no larger. *)
Theorem detect_keeps_first_largest {env : Environment}
    (image gray : ndarray) (faces : list box) (face : box) (eyes_full : list box) :
  cvtColor_BGR2GRAY image = Ok gray ->
  face_cascade_detectMultiScale gray = Ok faces ->
  detect_face_and_eyes image = Ok (Some (face, eyes_full)) ->
  exists before after,
    faces = before ++ face :: after /\
    (forall f, In f before -> area f < area face) /\
    (forall f, In f after -> area f <= area face).
Proof.
  intros Hgray Hfaces Hdetect.
  destruct (detect_face_and_eyes_found image face eyes_full Hdetect)
    as (gray' & f0 & rest & eyes & Hg & Hf & -> & _).
  rewrite Hgray in Hg. injection Hg as <-. rewrite Hfaces in Hf. injection Hf as ->.
  apply max_from_first.
Qed.

Lemma detect_keeps_first_largest_witness :
  exists before after,
    [Box 10 10 40 40; Box 400 200 200 220] = before ++ Box 400 200 200 220 :: after /\
    (forall f, In f before -> area f < area (Box 400 200 200 220)).
Proof.
  destruct (detect_keeps_first_largest (env := Example.world)
              (Example.blank 800 1000)
              {| shape0 := 800; shape1 := 1000; data := fun _ _ => [0] |}
              [Box 10 10 40 40; Box 400 200 200 220] (Box 400 200 200 220)
              [Box 520 260 30 30; Box 440 262 30 30] eq_refl eq_refl eq_refl)
    as (before & after & Heq & Hb & _).
  exists before, after. split; assumption.
Defined.

(** X10: the detection raises nothing of its own: when it raises, the
    exception is the one raised by the colour conversion, by the face cascade
    or by the eye cascade; the [max] over the candidates is never reached
    with an empty list. *)
Theorem detect_raises_only_from_opencv {env : Environment}
    (image : ndarray) (e : Exception) :
  detect_face_and_eyes image = Raise e ->
  cvtColor_BGR2GRAY image = Raise e \/
  exists gray,
    cvtColor_BGR2GRAY image = Ok gray /\
    (face_cascade_detectMultiScale gray = Raise e \/
     exists faces face_roi,
       face_cascade_detectMultiScale gray = Ok faces /\ faces <> [] /\
       eye_cascade_detectMultiScale face_roi = Raise e).
Proof.
  unfold detect_face_and_eyes.
  destruct (cvtColor_BGR2GRAY image) as [gray|e0]; cbn [res_bind];
    [|intros [= ->]; now left].
  intros H. right. exists gray. split; [reflexivity|].
  destruct (face_cascade_detectMultiScale gray) as [[|f0 faces]|e0]; cbn [res_bind] in H.
  - discriminate.
  - right. replace (len (f0 :: faces) =? 0) with false in H
      by (symmetry; apply Z.eqb_neq; unfold len; simpl; lia).
    cbn [py_max res_bind] in H. cbv zeta in H.
    destruct (eye_cascade_detectMultiScale _) as [eyes|e1] eqn:E; cbn [res_bind] in H;
      [discriminate|].
    injection H as ->. eexists _, _. split; [reflexivity|]. split; [discriminate|].
    exact E.
  - injection H as ->. now left.
Qed.

Lemma detect_raises_only_from_opencv_witness :
  cvtColor_BGR2GRAY (Environment := Desk.no_gray) (Example.blank 800 1000) =
    Raise (cv2_error "cvtColor") \/
  exists gray,
    cvtColor_BGR2GRAY (Environment := Desk.no_gray) (Example.blank 800 1000) = Ok gray /\
    (face_cascade_detectMultiScale (Environment := Desk.no_gray) gray =
       Raise (cv2_error "cvtColor") \/
     exists faces face_roi,
       face_cascade_detectMultiScale (Environment := Desk.no_gray) gray = Ok faces /\
       faces <> [] /\
       eye_cascade_detectMultiScale (Environment := Desk.no_gray) face_roi =
         Raise (cv2_error "cvtColor")).
Proof.
  apply (detect_raises_only_from_opencv (env := Desk.no_gray) (Example.blank 800 1000)).
  reflexivity.
Defined.

(** ** One image, continued *)

Section OneImageMore.
Context {env : Environment}.

(** On a non-empty image in which a face was found, nothing between the
    detection and the write can fail. *)
Lemma prepare_found (image : ndarray) (face : box) (eyes : list box) :
  1 <= shape0 image -> 1 <= shape1 image ->
  detect_face_and_eyes image = Ok (Some (face, eyes)) ->
  exists final_image, prepare image = Ok (Some final_image).
Proof.
  intros Hh Hw Hdetect. unfold prepare. rewrite Hdetect. cbn [res_bind].
  destruct (face_position_total face eyes) as ([face_x face_y] & Hpos).
  destruct (crop_window_bounds (shape1 image) (shape0 image) face_x face_y Hw Hh)
    as (l & t & r & b & Heq & Hin & _).
  destruct (slice2_shape image l t r b Hin) as [Hs0 Hs1].
  unfold calculate_crop_region. rewrite Hpos. cbn [res_bind]. rewrite Heq.
  cbn [res_bind]. unfold crop_and_resize, cv2_resize.
  assert (Hne : is_empty (slice2 image t b l r) = false).
  { unfold is_empty. rewrite Hs0, Hs1. unfold Spec.inside in Hin. lia. }
  rewrite Hne. destruct (negb _ || negb _); cbn [res_bind]; eauto.
Qed.

End OneImageMore.

(** X11: when the file is decoded to a non-empty image and a face is found in
    it, [process_image] gives a 512x512 image to [imwrite] under the name
    [processed_<name>] in the output folder. It answers [True] as soon as
    [imwrite] returns, whatever [imwrite] answers, and the success message is
    printed; [True] never comes without [imwrite] returning; and when the
    success message cannot be printed the [except] block decides, although
    the image was written. *)
Theorem process_image_writes_found_face {env : Environment}
    (image_path : Path) (output_folder : string) (t : trace)
    (image : ndarray) (face : box) (eyes : list box) :
  imread t (str image_path) = Ok (Some image) ->
  1 <= shape0 image -> 1 <= shape1 image ->
  detect_face_and_eyes image = Ok (Some (face, eyes)) ->
  exists final_image result,
    let t1 := t ++ [Imread (str image_path)] in
    let t2 := t ++ [Imread (str image_path);
                    Imwrite (output_file output_folder image_path) final_image] in
    process_image image_path output_folder t = (t2, result) /\
    shape0 final_image = 512 /\ shape1 final_image = 512 /\
    (forall answer,
       imwrite t1 (output_file output_folder image_path) final_image = Ok answer ->
       print t2 (Processed (name image_path)) = Ok tt ->
       result = Ok true) /\
    (result = Ok true ->
     exists answer,
       imwrite t1 (output_file output_folder image_path) final_image = Ok answer) /\
    (forall answer e,
       imwrite t1 (output_file output_folder image_path) final_image = Ok answer ->
       print t2 (Processed (name image_path)) = Raise e ->
       result = snd (handled image_path t2 e)).
Proof.
  intros Hread Hh Hw Hdetect.
  destruct (prepare_found image face eyes Hh Hw Hdetect) as (final_image & Hprep).
  destruct (prepare_shape image final_image Hprep) as [H0 H1].
  exists final_image. rewrite process_image_run, Hread, Hprep. cbv zeta.
  rewrite <- app_assoc. cbn [app].
  destruct (imwrite _ _ final_image) as [answer|e].
  - unfold said.
    destruct (print _ (Processed (name image_path))) as [[]|e] eqn:Hp.
    + eexists. split; [reflexivity|]. split; [exact H0|]. split; [exact H1|].
      split; [reflexivity|]. split; [eauto | intros ? ? _ [=]].
    + eexists. split; [reflexivity|]. split; [exact H0|]. split; [exact H1|].
      split; [intros ? _ [=]|].
      split; [eauto | intros ? ? _ [= <-]; reflexivity].
  - destruct (handled_outcome image_path
                (t ++ [Imread (str image_path);
                       Imwrite (output_file output_folder image_path) final_image]) e)
      as (r & Hrun & Hnt & _).
    exists r. split; [exact Hrun|]. split; [exact H0|]. split; [exact H1|].
    split; [intros ? [=]|]. split; [intros ->; congruence | intros ? ? [=]].
Qed.

Lemma process_image_writes_found_face_witness :
  (exists final_image,
     process_image (env := Desk.silent_disk) (mk_Path "in" "a.jpg") "out" [] =
       ([Imread "in/a.jpg"; Imwrite "out/processed_a.jpg" final_image], Ok true)) /\
  (exists final_image,
     process_image (env := Desk.no_check_mark) (mk_Path "in" "a.jpg") "out" [] =
       ([Imread "in/a.jpg"; Imwrite "out/processed_a.jpg" final_image], Ok false)).
Proof.
  split.
  - destruct (process_image_writes_found_face (env := Desk.silent_disk)
                (mk_Path "in" "a.jpg") "out" [] (Example.blank 800 1000)
                (Box 400 200 200 220) [Box 520 260 30 30; Box 440 262 30 30]
                eq_refl) as (final_image & result & Hrun & _ & _ & Hok & _).
    + simpl. lia.
    + simpl. lia.
    + reflexivity.
    + exists final_image. cbv zeta in Hrun, Hok.
      rewrite (Hok false eq_refl eq_refl) in Hrun. exact Hrun.
  - destruct (process_image_writes_found_face (env := Desk.no_check_mark)
                (mk_Path "in" "a.jpg") "out" [] (Example.blank 800 1000)
                (Box 400 200 200 220) [Box 520 260 30 30; Box 440 262 30 30]
                eq_refl) as (final_image & result & Hrun & _ & _ & _ & _ & Hno).
    + simpl. lia.
    + simpl. lia.
    + reflexivity.
    + exists final_image. cbv zeta in Hrun, Hno.
      rewrite (Hno true (OtherException "UnicodeEncodeError") eq_refl eq_refl) in Hrun.
      exact Hrun.
Defined.

(** X12: [process_image] touches the file system at most twice: it reads its
    own file once and then either stops with [False], or makes one write, of
    a 512x512 image, to [processed_<name>] in the output folder; a result of
    [True] therefore always comes with that write. *)
Theorem process_image_reads_then_writes {env : Environment}
    (image_path : Path) (output_folder : string) (t t' : trace) (ok : bool) :
  process_image image_path output_folder t = (t', Ok ok) ->
  (ok = false /\ t' = t ++ [Imread (str image_path)]) \/
  exists final_image,
    t' = t ++ [Imread (str image_path);
               Imwrite (output_file output_folder image_path) final_image] /\
    shape0 final_image = 512 /\ shape1 final_image = 512.
Proof.
  intros Hrun.
  destruct (process_image_outcome image_path output_folder t)
    as (written & r & H & Hw & Htrue & _).
  rewrite H in Hrun. injection Hrun as <- ->.
  destruct Hw as [-> | (final_image & -> & H0 & H1)].
  - left. split; [|reflexivity].
    destruct ok; [|reflexivity]. now destruct (Htrue eq_refl).
  - right. exists final_image. repeat split; assumption.
Qed.

Lemma process_image_reads_then_writes_witness :
  (false = false /\ [Imread "in/d.jpg"] = [] ++ [Imread (str (mk_Path "in" "d.jpg"))]) \/
  exists final_image,
    [Imread "in/d.jpg"] =
      [] ++ [Imread (str (mk_Path "in" "d.jpg"));
             Imwrite (output_file "out" (mk_Path "in" "d.jpg")) final_image] /\
    shape0 final_image = 512 /\ shape1 final_image = 512.
Proof.
  apply (process_image_reads_then_writes (env := Example.world)
           (mk_Path "in" "d.jpg") "out" [] [Imread "in/d.jpg"] false).
  reflexivity.
Defined.

(** ** The batch, continued *)

Lemma imwrites_app (t u : trace) :
  Spec.imwrites (t ++ u) = Spec.imwrites t ++ Spec.imwrites u.
Proof. apply flat_map_app. Qed.

Lemma select_length {A : Type} (mask : list bool) (l : list A) :
  (List.length (select mask l) <= List.length l)%nat.
Proof.
  revert l. induction mask as [|b mask IH]; intros [|a l]; simpl; try lia.
  specialize (IH l). destruct b; simpl; lia.
Qed.

Lemma select_none {A : Type} (n : nat) (l : list A) :
  select (repeat false n) l = [].
Proof.
  revert l. induction n as [|n IH]; intros [|a l]; simpl; auto.
Qed.

(** Files marked by [oks] are marked by [wrote] as soon as [oks] implies
    [wrote] entry by entry. *)
Lemma select_count {A : Type} (oks wrote : list bool) (l : list A) :
  Forall2 (fun ok w => ok = true -> w = true) oks wrote ->
  List.length wrote = List.length l ->
  (List.length (filter (fun ok => ok) oks) <= List.length (select wrote l))%nat.
Proof.
  intros H. revert l. induction H as [|ok w oks wrote Hw _ IH]; intros l Hlen.
  - simpl. lia.
  - destruct l as [|a l]; [discriminate|]. injection Hlen as Hlen.
    specialize (IH l Hlen). destruct ok; simpl.
    + rewrite Hw by reflexivity. simpl. lia.
    + destruct w; simpl; lia.
Qed.

Lemma select_in {A : Type} (mask : list bool) (l : list A) (a : A) :
  In a (select mask l) -> In a l.
Proof.
  revert l. induction mask as [|b mask IH]; intros [|x l]; simpl; try tauto.
  destruct b; simpl; intros H; [destruct H as [H | H]; [now left|]|]; right;
    now apply IH.
Qed.

Section BatchMore.
Context {env : Environment}.

(** What the loop reads and writes, whether it returns or stops on an
    exception. *)
Lemma process_loop_outputs (output_folder : string) (image_files : list Path) :
  forall (successful failed : Z) (t : trace),
  exists wrote ext r,
    process_loop image_files output_folder successful failed t = (t ++ ext, r) /\
    List.length wrote = List.length image_files /\
    map fst (Spec.imwrites ext) =
      map (output_file output_folder) (select wrote image_files) /\
    writes_512 ext /\
    (forall ev, In ev ext -> is_image_event ev) /\
    (forall s f, r = Ok (s, f) ->
       exists oks,
         Forall2 (fun ok w => ok = true -> w = true) oks wrote /\
         s = successful + len (filter (fun ok => ok) oks) /\
         Spec.imreads ext = map str image_files).
Proof.
  induction image_files as [|image_file rest IH]; intros successful failed t.
  - exists [], [], (Ok (successful, failed)). simpl. unfold ret.
    rewrite app_nil_r.
    split; [reflexivity|]. split; [reflexivity|]. split; [reflexivity|].
    split; [intros ? ? []|]. split; [intros ? []|].
    intros s f [= <- <-]. exists []. split; [constructor|].
    unfold len. simpl. split; [lia | reflexivity].
  - destruct (process_image_outcome image_file output_folder t)
      as (written & r1 & Hrun & Hshape & Htrue & _).
    set (w := match written with [] => false | _ :: _ => true end).
    assert (Hw1 : map fst (Spec.imwrites (Imread (str image_file) :: written)) =
                  (if w then [output_file output_folder image_file] else [])).
    { destruct Hshape as [-> | (final_image & -> & _)]; reflexivity. }
    assert (H512 : writes_512 (Imread (str image_file) :: written)).
    { destruct Hshape as [-> | (final_image & -> & H0 & H1)].
      - intros f img [[=]|[]].
      - intros f img [[=] | [[= _ <-] | []]]. split; assumption. }
    assert (Hev : forall ev, In ev (Imread (str image_file) :: written) ->
                             is_image_event ev).
    { destruct Hshape as [-> | (final_image & -> & _)].
      - intros ev [<- | []]. left. eauto.
      - intros ev [<- | [<- | []]]; [left | right]; eauto. }
    assert (Hr1 : Spec.imreads (Imread (str image_file) :: written) = [str image_file]).
    { destruct Hshape as [-> | (final_image & -> & _)]; reflexivity. }
    destruct r1 as [ok|e].
    + destruct (IH (if ok then successful + 1 else successful)
                   (if ok then failed else failed + 1)
                   (t ++ Imread (str image_file) :: written))
        as (wrote & ext2 & r & Hloop & Hlen & Hw2 & H512' & Hev' & Hok).
      exists (w :: wrote), ((Imread (str image_file) :: written) ++ ext2), r.
      split; [|split; [|split; [|split; [|split]]]].
      * simpl process_loop. unfold bind. rewrite Hrun, app_assoc.
        destruct ok; exact Hloop.
      * simpl. now rewrite Hlen.
      * rewrite imwrites_app, map_app, Hw1, Hw2. destruct w; reflexivity.
      * intros f img Hin. apply in_app_or in Hin as [Hin | Hin];
          [eapply H512 | eapply H512']; eassumption.
      * intros ev Hin. apply in_app_or in Hin as [Hin | Hin]; auto.
      * intros s f Hr. destruct (Hok s f Hr) as (oks & Himp & Hs & Hreads).
        exists (ok :: oks). split; [|split].
        -- constructor; [|exact Himp]. intros ->. unfold w.
           destruct written; [now destruct (Htrue eq_refl) | reflexivity].
        -- rewrite Hs. destruct ok; unfold len; cbn [filter List.length];
             rewrite ?Nat2Z.inj_succ; lia.
        -- rewrite imreads_app, Hr1, Hreads. reflexivity.
    + exists (w :: repeat false (List.length rest)),
        (Imread (str image_file) :: written), (Raise e).
      split; [|split; [|split; [|split; [|split]]]].
      * simpl process_loop. unfold bind. now rewrite Hrun.
      * simpl. now rewrite repeat_length.
      * rewrite Hw1. simpl select. rewrite select_none. destruct w; reflexivity.
      * exact H512.
      * exact Hev.
      * intros s f [=].
Qed.

End BatchMore.

(** X13: the loop writes only results of its inputs, whether it returns or
    not: the names given to [imwrite] are [processed_<name>] in the output
    folder for a choice of the inputs, in the order of the inputs; every
    image written is 512x512; the number of writes is at most the number of
    inputs; and when the loop returns, its count of successes is at most the
    number of writes. *)
Theorem batch_outputs {env : Environment}
    (image_files : list Path) (output_folder : string) (t : trace) :
  exists wrote ext result,
    process_loop image_files output_folder 0 0 t = (t ++ ext, result) /\
    List.length wrote = List.length image_files /\
    map fst (Spec.imwrites ext) =
      map (output_file output_folder) (select wrote image_files) /\
    writes_512 ext /\
    len (Spec.imwrites ext) <= len image_files /\
    (forall successful failed,
       result = Ok (successful, failed) -> successful <= len (Spec.imwrites ext)).
Proof.
  destruct (process_loop_outputs output_folder image_files 0 0 t)
    as (wrote & ext & r & Hloop & Hlen & Hnames & H512 & _ & Hok).
  exists wrote, ext, r. split; [exact Hloop|]. split; [exact Hlen|].
  split; [exact Hnames|]. split; [exact H512|].
  assert (Hn : List.length (Spec.imwrites ext) =
               List.length (select wrote image_files)).
  { rewrite <- (length_map fst), Hnames. apply length_map. }
  pose proof (select_length wrote image_files).
  split; [unfold len; rewrite Hn; lia|].
  intros s f Hr. destruct (Hok s f Hr) as (oks & Himp & -> & _).
  pose proof (select_count oks wrote image_files Himp Hlen).
  unfold len. rewrite Hn. lia.
Qed.

(** ** The folder *)





(** X15: the loop of [process_folder] raises only what the error message of
    [process_image] raised: when it raises, it has run the files before some
    file in order, [process_image] raised on that file because the [print]
    of its [except] block did, and no later file has been read. *)
Theorem loop_stops_at_failed_print {env : Environment}
    (image_files : list Path) (output_folder : string) (t t' : trace)
    (e : Exception) :
  process_loop image_files output_folder 0 0 t = (t', Raise e) ->
  exists done image_file rest oks t1 e0,
    image_files = done ++ image_file :: rest /\
    runs_in_order output_folder done t oks t1 /\
    process_image image_file output_folder t1 = (t', Raise e) /\
    print t' (Error_processing image_file e0) = Raise e /\
    Spec.imreads t' = Spec.imreads t ++ map str (done ++ [image_file]).
Proof.
  intros Hloop.
  destruct (process_loop_cases output_folder image_files 0 0 t)
    as [(oks & t1 & _ & _ & _ & H)
       | (done & file & rest & oks & t1 & t2 & e1 & Hfiles & Hruns & Hraise & Hreads & H)];
    rewrite H in Hloop; [discriminate|].
  injection Hloop as <- <-.
  destruct (process_image_outcome file output_folder t1)
    as (written & r & Hrun & _ & _ & Hr).
  rewrite Hrun in Hraise. injection Hraise as <- ->.
  destruct (Hr e1 eq_refl) as (e0 & He0).
  exists done, file, rest, oks, t1, e0. rewrite Hrun. repeat split; assumption.
Qed.

Lemma loop_stops_at_failed_print_witness :
  exists done image_file rest,
    Example.files = done ++ image_file :: rest /\
    Spec.imreads
      (fst (process_loop (env := Desk.strict_stdout) Example.files "out" 0 0 [])) =
    Spec.imreads [] ++ map str (done ++ [image_file]).
Proof.
  destruct (loop_stops_at_failed_print (env := Desk.strict_stdout) Example.files
              "out" []
              (fst (process_loop (env := Desk.strict_stdout) Example.files "out" 0 0 []))
              (OtherException "UnicodeEncodeError"))
    as (done & image_file & rest & oks & t1 & e0 & Hfiles & _ & _ & _ & Hreads).
  - vm_compute. reflexivity.
  - exists done, image_file, rest. split; assumption.
Defined.

(** X16: a [process_folder] that returns after finding images has listed the
    input folder once, then created the output folder once, and only then
    read and written images: it read exactly the listed images, in the order
    of the listing, and everything it wrote is a 512x512 image named
    [processed_<name>] in the output folder after one of them. *)
Theorem process_folder_order {env : Environment}
    (input_folder output_folder : string) (t t' : trace) (result : bool)
    (entries : list DirEntry) :
  process_folder input_folder output_folder t = (t', Ok result) ->
  iterdir t input_folder = Ok entries ->
  listed_images entries <> [] ->
  exists ext,
    t' = t ++ Iterdir input_folder :: Mkdir output_folder :: ext /\
    (forall ev, In ev ext -> is_image_event ev) /\
    Spec.imreads ext = map str (listed_images entries) /\
    (forall f img, In (Imwrite f img) ext ->
       (exists image_path,
          In image_path (listed_images entries) /\
          f = output_file output_folder image_path) /\
       shape0 img = 512 /\ shape1 img = 512).
Proof.
  intros Hrun Hlist Hne. rewrite process_folder_run, Hlist in Hrun.
  destruct (listed_images entries) as [|image_file rest] eqn:E; [congruence|].
  destruct (mkdir (t ++ [Iterdir input_folder]) output_folder) as [u|e];
    [|discriminate].
  destruct (process_loop_outputs output_folder (image_file :: rest) 0 0
              (t ++ [Iterdir input_folder; Mkdir output_folder]))
    as (wrote & ext & r & Hloop & _ & Hnames & H512 & Hev & Hok).
  rewrite Hloop in Hrun. destruct r as [[s f]|e]; [|discriminate].
  injection Hrun as <- _.
  destruct (Hok s f eq_refl) as (oks & _ & _ & Hreads).
  exists ext. split; [rewrite <- app_assoc; reflexivity|]. split; [exact Hev|].
  split; [exact Hreads|]. intros f0 img Hin. split; [|eapply H512; eassumption].
  assert (Hf : In f0 (map fst (Spec.imwrites ext))).
  { apply in_map_iff. exists (f0, img). split; [reflexivity|].
    unfold Spec.imwrites. apply in_flat_map. exists (Imwrite f0 img).
    split; [exact Hin | now left]. }
  rewrite Hnames in Hf. apply in_map_iff in Hf as (image_path & <- & Hp).
  exists image_path. split; [|reflexivity]. eapply select_in, Hp.
Qed.

Lemma process_folder_order_witness :
  exists ext,
    fst (process_folder (env := Example.world) "in" "out" []) =
      [] ++ Iterdir "in" :: Mkdir "out" :: ext /\
    Spec.imreads ext = ["in/a.jpg"; "in/b.jpg"; "in/c.jpg"; "in/d.jpg"; "in/e.jpg"]%string.
Proof.
  destruct (process_folder_order (env := Example.world) "in" "out" []
              (fst (process_folder (env := Example.world) "in" "out" [])) true
              (map (fun p => mk_DirEntry p true ".jpg") Example.files ++
               [mk_DirEntry (mk_Path "in" "notes.txt") true ".txt";
                mk_DirEntry (mk_Path "in" "old.png") false ".png"]))
    as (ext & Hrun & _ & Hreads & _).
  - vm_compute. reflexivity.
  - reflexivity.
  - discriminate.
  - exists ext. split; [exact Hrun | exact Hreads].
Defined.



(** ** The program *)





(** X20: [process_folder] answers [True] only after [imwrite] was given at
    least one image, a 512x512 one: a successful run never leaves without
    having attempted an output. *)
Theorem process_folder_success_has_output {env : Environment}
    (input_folder output_folder : string) (t t' : trace) :
  process_folder input_folder output_folder t = (t', Ok true) ->
  exists ext f img,
    t' = t ++ ext /\ In (Imwrite f img) ext /\
    shape0 img = 512 /\ shape1 img = 512.
Proof.
  rewrite process_folder_run.
  destruct (iterdir t input_folder) as [entries|e]; [|discriminate].
  destruct (listed_images entries) as [|image_file rest]; [discriminate|].
  destruct (mkdir (t ++ [Iterdir input_folder]) output_folder) as [u|e];
    [|discriminate].
  destruct (process_loop_outputs output_folder (image_file :: rest) 0 0
              (t ++ [Iterdir input_folder; Mkdir output_folder]))
    as (wrote & ext & r & Hloop & Hlen & Hnames & H512 & _ & Hok).
  rewrite Hloop. destruct r as [[s f]|e]; [|discriminate].
  intros [= <- Hpos]. apply Z.gtb_gt in Hpos.
  destruct (Hok s f eq_refl) as (oks & Himp & -> & _).
  assert (Hn : List.length (Spec.imwrites ext) =
               List.length (select wrote (image_file :: rest))).
  { rewrite <- (length_map fst), Hnames. apply length_map. }
  pose proof (select_count oks wrote (image_file :: rest) Himp Hlen) as Hc.
  destruct (Spec.imwrites ext) as [|[f0 img] ws] eqn:Ew.
  - unfold len in Hpos. simpl in Hn. lia.
  - assert (Hin : In (f0, img) (Spec.imwrites ext)) by (rewrite Ew; now left).
    unfold Spec.imwrites in Hin. apply in_flat_map in Hin as (ev & Hev & Hin).
    destruct ev; simpl in Hin; try contradiction.
    destruct Hin as [[= -> ->] | []].
    exists ([Iterdir input_folder; Mkdir output_folder] ++ ext), f0, img.
    split; [now rewrite app_assoc|].
    split; [apply in_or_app; now right|]. eapply H512, Hev.
Qed.

Lemma process_folder_success_has_output_witness :
  exists ext f img,
    fst (process_folder (env := Example.world) "in" "out" []) = [] ++ ext /\
    In (Imwrite f img) ext /\ shape0 img = 512 /\ shape1 img = 512.
Proof.
  apply (process_folder_success_has_output (env := Example.world) "in" "out" []).
  destruct (process_folder (env := Example.world) "in" "out" []) as [t' r] eqn:E.
  cbn [fst]. f_equal.
  assert (H : snd (process_folder (env := Example.world) "in" "out" []) = Ok true)
    by (vm_compute; reflexivity).
  rewrite E in H. exact H.
Defined.
